(** * Shallow embedding of the financial calculators of backend-rust

    Source: [src/backend-rust/src/calculators.rs] and [models.rs].

    Numeric model.  Every [f64] of the source is modelled as an exact real
    number ([R]); the arithmetic operators, [ln], [powf] and [powi] are the
    real ones, so the embedding idealises IEEE rounding (and has no NaN or
    infinity).  Casts [as i32] and [as u32] are written out as Rust defines
    them: truncation toward zero, then saturation to the target range.
    [f64::round] rounds half away from zero.  Pixel coordinates are [i32],
    modelled as [Z] with two's complement wrap-around. *)

From Stdlib Require Import String Ascii List ZArith QArith Reals Qreals Lra Lia.
From Stdlib Require Import DecimalString.
Import ListNotations.

Open Scope R_scope.

(* ------------------------------------------------------------------ *)
(** ** Machine numbers *)

Module F64.

(** [floor], via the archimedean [up] of the Standard Library. *)
Definition floor_z (x : R) : Z := Int_part x.

Definition ceil_z (x : R) : Z := (- floor_z (- x))%Z.

(** [f64::trunc]: rounding toward zero. *)
Definition trunc_z (x : R) : Z :=
  if Rle_dec 0 x then floor_z x else ceil_z x.

(** [f64::round]: round half away from zero. *)
Definition round_z (x : R) : Z :=
  if Rle_dec 0 x then floor_z (x + / 2) else (- floor_z (- x + / 2))%Z.

Definition round (x : R) : R := IZR (round_z x).
Definition ceil (x : R) : R := IZR (ceil_z x).

(** [(x * 100.0).round() / 100.0] and [(x * 10.0).round() / 10.0]. *)
Definition round2 (x : R) : R := round (x * 100) / 100.
Definition round1 (x : R) : R := round (x * 10) / 10.

(** [x as i32] and [x as u32] for a float [x] (saturating casts). *)
Definition i32_min : Z := (- 2 ^ 31)%Z.
Definition i32_max : Z := (2 ^ 31 - 1)%Z.
Definition u32_max : Z := (2 ^ 32 - 1)%Z.

Definition as_i32 (x : R) : Z := Z.max i32_min (Z.min (trunc_z x) i32_max).
Definition as_u32 (x : R) : Z := Z.max 0 (Z.min (trunc_z x) u32_max).

(** [f64::max] and the comparisons [>] and [<=] as booleans. *)
Definition fmax (x y : R) : R := Rmax x y.
Definition gtb (x y : R) : bool := if Rlt_dec y x then true else false.
Definition leb (x y : R) : bool := if Rle_dec x y then true else false.

(** [x.powf(y)] and [x.powi(n)]. *)
Definition powf (x y : R) : R := Rpower x y.
Definition powi (x : R) (n : Z) : R := powerRZ x n.

(** Wrap-around of [i32] arithmetic (release build). *)
Definition wrap32 (z : Z) : Z := ((z + 2 ^ 31) mod 2 ^ 32 - 2 ^ 31)%Z.

End F64.

Import F64.

(* ------------------------------------------------------------------ *)
(** ** Strings *)

Open Scope string_scope.

Definition dq : string := String (ascii_of_nat 34) EmptyString.

(** An attribute value between double quotes. *)
Definition quoted (s : string) : string := dq ++ s ++ dq.

(** [Display] of an [i32] (and of an integral [f64]). *)
Definition string_of_Z (z : Z) : string :=
  NilZero.string_of_int (Z.to_int z).

(** [get_currency_symbol] (calculators.rs, lines 3-11). *)
Definition get_currency_symbol (currency : string) : string :=
  if String.eqb currency "EUR" then "€"
  else if String.eqb currency "USD" then "$"
  else if String.eqb currency "UAH" then "₴"
  else if String.eqb currency "BTC" then "₿"
  else "€".

(** The table of the spec: known codes and their symbols, Euro by default. *)
Definition spec_currency_table : list (string * string) :=
  [("EUR", "€"); ("USD", "$"); ("UAH", "₴"); ("BTC", "₿")].

Fixpoint spec_lookup (k : string) (t : list (string * string)) : option string :=
  match t with
  | [] => None
  | (k', v) :: t' => if String.eqb k k' then Some v else spec_lookup k t'
  end.

Definition spec_currency_symbol (currency : string) : string :=
  match spec_lookup currency spec_currency_table with
  | Some s => s
  | None => "€"
  end.

(* ------------------------------------------------------------------ *)
(** ** Chart renderer: [create_bar_chart] (calculators.rs, lines 13-63) *)

Module Chart.

Definition width : Z := 400.
Definition height : Z := 300.
Definition padding : Z := 40.
Definition chart_width : Z := (width - padding * 2)%Z.
Definition chart_height : Z := (height - padding * 2)%Z.

Definition default_color : string := "#3498db".

(** One iteration of the drawing loop: the values it computes. *)
Record Bar := {
  bar_x : Z;
  bar_y : Z;
  bar_w : Z;
  bar_h : Z;
  bar_color : string;
  bar_label : string;
  bar_value : R
}.

(** [values.iter().cloned().fold(0.0, f64::max)] *)
Definition max_val (values : list R) : R := fold_left fmax values 0.

(** [if max_val > 0.0 { chart_height as f64 / max_val } else { 1.0 }] *)
Definition scale (values : list R) : R :=
  if gtb (max_val values) 0 then IZR chart_height / max_val values else 1.

(** The loop over [labels.iter().zip(values.iter()).enumerate()]. *)
Fixpoint layout_bars (i : nat) (bar_width : Z) (sc : R) (colors : list string)
    (lv : list (string * R)) : list Bar :=
  match lv with
  | [] => []
  | (label, value) :: rest =>
      let x := wrap32 (padding + wrap32 (Z.of_nat i * wrap32 (bar_width + 10)) + 5) in
      let h := as_i32 (value * sc) in
      let y := wrap32 (height - padding - h) in
      let color := match nth_error colors i with
                   | Some c => c
                   | None => default_color
                   end in
      {| bar_x := x; bar_y := y; bar_w := bar_width; bar_h := h;
         bar_color := color; bar_label := label; bar_value := value |}
        :: layout_bars (S i) bar_width sc colors rest
  end.

(** [chart_width / labels.len() as i32 - 10]: an [i32] division, which
    panics ([None]) on an empty [labels]. *)
Definition bar_width (labels : list string) : option Z :=
  let len := Z.of_nat (length labels) in
  if (len =? 0)%Z then None else Some (wrap32 (Z.quot chart_width len - 10)).

Definition layout (labels : list string) (values : list R) (colors : list string)
    : option (list Bar) :=
  match bar_width labels with
  | None => None
  | Some bw => Some (layout_bars 0 bw (scale values) colors (combine labels values))
  end.

(** The markup pushed by one iteration. *)
Definition render_bar (b : Bar) : string :=
  let cx := wrap32 (bar_x b + Z.quot (bar_w b) 2) in
  "<rect x=" ++ quoted (string_of_Z (bar_x b)) ++
  " y=" ++ quoted (string_of_Z (bar_y b)) ++
  " width=" ++ quoted (string_of_Z (bar_w b)) ++
  " height=" ++ quoted (string_of_Z (bar_h b)) ++
  " fill=" ++ quoted (bar_color b) ++ " rx=" ++ quoted "4" ++ " />" ++
  "<text x=" ++ quoted (string_of_Z cx) ++
  " y=" ++ quoted (string_of_Z (height - padding + 15)) ++
  " font-family=" ++ quoted "sans-serif" ++ " font-size=" ++ quoted "10" ++
  " text-anchor=" ++ quoted "middle" ++ ">" ++ bar_label b ++ "</text>" ++
  "<text x=" ++ quoted (string_of_Z cx) ++
  " y=" ++ quoted (string_of_Z (wrap32 (bar_y b - 5))) ++
  " font-family=" ++ quoted "sans-serif" ++ " font-size=" ++ quoted "10" ++
  " font-weight=" ++ quoted "bold" ++ " text-anchor=" ++ quoted "middle" ++ ">" ++
  string_of_Z (round_z (bar_value b)) ++ "</text>".

Definition header (title : string) : string :=
  "<svg width=" ++ quoted (string_of_Z width) ++
  " height=" ++ quoted (string_of_Z height) ++
  " viewBox=" ++ quoted ("0 0 " ++ string_of_Z width ++ " " ++ string_of_Z height) ++
  " xmlns=" ++ quoted "http://www.w3.org/2000/svg" ++ ">" ++
  "<rect width=" ++ quoted "100%" ++ " height=" ++ quoted "100%" ++
  " fill=" ++ quoted "white" ++ " />" ++
  "<text x=" ++ quoted (string_of_Z (Z.quot width 2)) ++ " y=" ++ quoted "25" ++
  " font-family=" ++ quoted "sans-serif" ++ " font-size=" ++ quoted "16" ++
  " font-weight=" ++ quoted "bold" ++ " text-anchor=" ++ quoted "middle" ++ ">" ++
  title ++ "</text>".

(** [create_bar_chart]; [None] is the panic of the integer division. *)
Definition create_bar_chart (title : string) (labels : list string)
    (values : list R) (colors : list string) : option string :=
  match layout labels values colors with
  | None => None
  | Some bars => Some (header title ++ String.concat "" (map render_bar bars) ++ "</svg>")
  end.

End Chart.

(* ------------------------------------------------------------------ *)
(** ** [calculate_investment] (calculators.rs, lines 106-136) *)

Module Investment.

Record InvestmentRequest := {
  initial_amount : R;
  monthly_contribution : R;
  annual_return : R;
  period : R;
  currency : string
}.

Record InvestmentResponse := {
  future_value : R;
  total_contributions : R;
  total_gain : R;
  roi : R;
  currency_symbol : string;
  chart : string
}.

Definition calculate_investment (req : InvestmentRequest) : option InvestmentResponse :=
  let r := annual_return req / 100 / 12 in
  let n := as_i32 (period req * 12) in
  let fv := if gtb r 0
            then initial_amount req * powi (1 + r) n
                 + monthly_contribution req * ((powi (1 + r) n - 1) / r)
            else initial_amount req + monthly_contribution req * IZR n in
  let total_inv := initial_amount req + monthly_contribution req * IZR n in
  let gain := fv - total_inv in
  let roi := if gtb total_inv 0 then (gain / total_inv) * 100 else 0 in
  match Chart.create_bar_chart "Структура капіталу" ["Внески"; "Прибуток"]
          [total_inv; gain] ["#3498db"; "#2ecc71"] with
  | None => None
  | Some chart =>
      Some {| future_value := round2 fv;
              total_contributions := round2 total_inv;
              total_gain := round2 gain;
              roi := round1 roi;
              currency_symbol := get_currency_symbol (currency req);
              chart := chart |}
  end.

End Investment.

(* ------------------------------------------------------------------ *)
(** ** [calculate_credit] (calculators.rs, lines 138-167) *)

Module Credit.

Record CreditRequest := {
  amount : R;
  rate : R;
  term : R;
  currency : string
}.

Record CreditResponse := {
  monthly_payment : R;
  total_payment : R;
  overpayment : R;
  currency_symbol : string;
  chart : string
}.

Definition calculate_credit (req : CreditRequest) : option CreditResponse :=
  let r := rate req / 100 / 12 in
  let n := term req * 12 in
  let pmt := if gtb r 0 && gtb n 0
             then amount req * (r * powf (1 + r) n) / (powf (1 + r) n - 1)
             else if gtb n 0 then amount req / n
             else 0 in
  let total := pmt * n in
  let overpayment := total - amount req in
  match Chart.create_bar_chart "Структура виплат" ["Тіло"; "Переплата"]
          [amount req; overpayment] ["#3498db"; "#e74c3c"] with
  | None => None
  | Some chart =>
      Some {| monthly_payment := round2 pmt;
              total_payment := round2 total;
              overpayment := round2 overpayment;
              currency_symbol := get_currency_symbol (currency req);
              chart := chart |}
  end.

End Credit.

(* ------------------------------------------------------------------ *)
(** ** [calculate_debt_payoff] (calculators.rs, lines 201-233) *)

Module Debt.

Record DebtPayoffRequest := {
  balance : R;
  interest_rate : R;
  monthly_payment : R;
  extra_payment : R;
  currency : string
}.

(** [months] is a [u32], kept as a [Z] in its range. *)
Record DebtPayoffResponse := {
  months : Z;
  total_paid : R;
  total_interest : R;
  currency_symbol : string;
  chart : string
}.

Definition calculate_debt_payoff (req : DebtPayoffRequest) : option DebtPayoffResponse :=
  let r := interest_rate req / 100 / 12 in
  let p := monthly_payment req + extra_payment req in
  if leb p (balance req * r) then
    Some {| months := 999;
            total_paid := 0;
            total_interest := 0;
            currency_symbol := get_currency_symbol (currency req);
            chart := "<svg></svg>" |}
  else
    let months := ln (p / (p - balance req * r)) / ln (1 + r) in
    let total_paid := p * months in
    let total_interest := total_paid - balance req in
    match Chart.create_bar_chart "Структура боргу" ["Борг"; "Відсотки"]
            [balance req; total_interest] ["#3498db"; "#e74c3c"] with
    | None => None
    | Some chart =>
        Some {| months := as_u32 (ceil months);
                total_paid := round2 total_paid;
                total_interest := round2 total_interest;
                currency_symbol := get_currency_symbol (currency req);
                chart := chart |}
    end.

End Debt.

(* ------------------------------------------------------------------ *)
(** ** [calculate_emergency_fund] (calculators.rs, lines 235-259) *)

Module Emergency.

Record EmergencyFundRequest := {
  monthly_expenses : R;
  months_coverage : R;
  current_savings : R;
  monthly_contribution : R;
  currency : string
}.

Record EmergencyFundResponse := {
  target_amount : R;
  remaining_amount : R;
  months_to_target : R;
  currency_symbol : string;
  chart : string
}.

Definition calculate_emergency_fund (req : EmergencyFundRequest)
    : option EmergencyFundResponse :=
  let target := monthly_expenses req * months_coverage req in
  let remaining := fmax (target - current_savings req) 0 in
  let months_to_target := if gtb (monthly_contribution req) 0
                          then remaining / monthly_contribution req
                          else -1 in
  match Chart.create_bar_chart "Статус подушки" ["Наявне"; "Ціль"]
          [current_savings req; target] ["#3498db"; "#f1c40f"] with
  | None => None
  | Some chart =>
      Some {| target_amount := round2 target;
              remaining_amount := round2 remaining;
              months_to_target := round1 months_to_target;
              currency_symbol := get_currency_symbol (currency req);
              chart := chart |}
  end.

End Emergency.

(* ------------------------------------------------------------------ *)
(** ** [calculate_hourly_income] (calculators.rs, lines 65-87) *)

Module Hourly.

Record HourlyIncomeRequest := {
  monthly_income : R;
  taxes : R;
  work_hours : R;
  commute_time : R;
  work_expenses : R;
  currency : string
}.

Record HourlyIncomeResponse := {
  real_hourly_income : R;
  nominal_hourly_income : R;
  net_income : R;
  efficiency : R;
  currency_symbol : string;
  chart : string
}.

Definition calculate_hourly_income (req : HourlyIncomeRequest)
    : option HourlyIncomeResponse :=
  let net_monthly := monthly_income req * (1 - taxes req / 100) - work_expenses req in
  let total_hours := work_hours req + commute_time req in
  let real_hourly := net_monthly / total_hours in
  let nom_hourly := monthly_income req / work_hours req in
  let efficiency := (real_hourly / nom_hourly) * 100 in
  match Chart.create_bar_chart "Порівняння ставок" ["Номінальна"; "Реальна"]
          [nom_hourly; real_hourly] ["#95a5a6"; "#2ecc71"] with
  | None => None
  | Some chart =>
      Some {| real_hourly_income := round2 real_hourly;
              nominal_hourly_income := round2 nom_hourly;
              net_income := round2 net_monthly;
              efficiency := round1 efficiency;
              currency_symbol := get_currency_symbol (currency req);
              chart := chart |}
  end.

End Hourly.

(* ------------------------------------------------------------------ *)
(** ** [calculate_time_value] (calculators.rs, lines 89-104) *)

Module TimeValue.

Record TimeValueRequest := {
  annual_income : R;
  annual_hours : R;
  currency : string
}.

Record TimeValueResponse := {
  time_value : R;
  currency_symbol : string;
  chart : string
}.

Definition chart_labels : list string := ["Година"; "День"; "Тиждень"; "Місяць"].

Definition chart_values (hourly : R) : list R :=
  [hourly; hourly * 8; hourly * 40; hourly * 160].

Definition calculate_time_value (req : TimeValueRequest) : option TimeValueResponse :=
  let hourly := annual_income req / annual_hours req in
  match Chart.create_bar_chart "Вартість часу" chart_labels (chart_values hourly)
          ["#3498db"; "#3498db"; "#3498db"; "#3498db"] with
  | None => None
  | Some chart =>
      Some {| time_value := round2 hourly;
              currency_symbol := get_currency_symbol (currency req);
              chart := chart |}
  end.

End TimeValue.

(* ------------------------------------------------------------------ *)
(** ** [calculate_retirement] (calculators.rs, lines 169-199) *)

Module Retirement.

Record RetirementRequest := {
  current_age : R;
  retirement_age : R;
  desired_income : R;
  current_savings : R;
  monthly_savings : R;
  expected_return : R;
  currency : string
}.

Record RetirementResponse := {
  future_value : R;
  required_capital : R;
  gap : R;
  currency_symbol : string;
  chart : string
}.

(** Lines 170-181: the savings reached at retirement, [total_fv]. *)
Definition total_fv (req : RetirementRequest) : R :=
  let years_to_save := retirement_age req - current_age req in
  let r := expected_return req / 100 / 12 in
  let n := as_i32 (years_to_save * 12) in
  let fv_existing := current_savings req * powi (1 + r) n in
  let fv_monthly := if gtb r 0
                    then monthly_savings req * ((powi (1 + r) n - 1) / r)
                    else monthly_savings req * IZR n in
  fv_existing + fv_monthly.

Definition calculate_retirement (req : RetirementRequest) : option RetirementResponse :=
  let total_fv := total_fv req in
  let required_capital := (desired_income req * 12) / 0.04 in
  let gap := fmax (required_capital - total_fv) 0 in
  match Chart.create_bar_chart "Пенсійне забезпечення" ["Матимете"; "Необхідно"]
          [total_fv; required_capital] ["#2ecc71"; "#e67e22"] with
  | None => None
  | Some chart =>
      Some {| future_value := round2 total_fv;
              required_capital := round2 required_capital;
              gap := round2 gap;
              currency_symbol := get_currency_symbol (currency req);
              chart := chart |}
  end.

End Retirement.

(* ------------------------------------------------------------------ *)
(** ** [calculate_tax] (calculators.rs, lines 261-281) *)

Module Tax.

Record TaxRequest := {
  income : R;
  tax_rate : R;
  currency : string
}.

Record TaxResponse := {
  tax_amount : R;
  net_income : R;
  effective_rate : R;
  currency_symbol : string;
  chart : string
}.

Definition calculate_tax (req : TaxRequest) : option TaxResponse :=
  let rate := tax_rate req / 100 in
  let tax_amount := income req * rate in
  let net_income := income req - tax_amount in
  match Chart.create_bar_chart "Структура доходу" ["Чистий"; "Податок"]
          [net_income; tax_amount] ["#2ecc71"; "#e74c3c"] with
  | None => None
  | Some chart =>
      Some {| tax_amount := round2 tax_amount;
              net_income := round2 net_income;
              effective_rate := round (rate * 100 * 10) / 10;
              currency_symbol := get_currency_symbol (currency req);
              chart := chart |}
  end.

End Tax.

(* ------------------------------------------------------------------ *)
(** ** [calculate_buy_rent] (calculators.rs, lines 283-328) *)

Module BuyRent.

Record BuyRentRequest := {
  property_price : R;
  down_payment : R;
  mortgage_rate : R;
  mortgage_term : R;
  monthly_rent : R;
  rent_growth : R;
  property_growth : R;
  horizon : R;
  currency : string
}.

Record BuyRentResponse := {
  net_buy_position : R;
  net_rent_position : R;
  recommendation : string;
  currency_symbol : string;
  chart : string
}.

(** [for _ in 1..=months { buy_costs_total += mp + (property_price * 0.01 / 12.0) }],
    run [k] times. *)
Fixpoint buy_loop (k : nat) (mp price : R) (acc : R) : R :=
  match k with
  | O => acc
  | S k' => buy_loop k' mp price (acc + (mp + (price * 0.01 / 12)))
  end.

(** [for m in 1..=months { rent_costs_total += curr_rent;
      if m % 12 == 0 { curr_rent *= 1.0 + rent_growth / 100.0 } }]:
    [k] iterations from month [m]; the state is [(rent_costs_total, curr_rent)]. *)
Fixpoint rent_loop (k : nat) (growth : R) (m : Z) (total curr : R) : R * R :=
  match k with
  | O => (total, curr)
  | S k' =>
      let total' := total + curr in
      let curr' := if (Z.rem m 12 =? 0)%Z then curr * (1 + growth / 100) else curr in
      rent_loop k' growth (m + 1) total' curr'
  end.

(** The iteration count of [1..=(horizon as i32 * 12)] (an [i32] product). *)
Definition months_of (horizon : R) : Z := wrap32 (as_i32 horizon * 12).

Definition iterations (months : Z) : nat := Z.to_nat months.

Definition mortgage_payment (loan r : R) (n : Z) : R :=
  if gtb loan 0 && gtb r 0 then loan * (r * powi (1 + r) n) / (powi (1 + r) n - 1)
  else if gtb loan 0 && (0 <? n)%Z then loan / IZR n
  else 0.

Definition calculate_buy_rent (req : BuyRentRequest) : option BuyRentResponse :=
  let loan := fmax (property_price req - down_payment req) 0 in
  let r := mortgage_rate req / 100 / 12 in
  let n := as_i32 (mortgage_term req * 12) in
  let mp := mortgage_payment loan r n in
  let k := iterations (months_of (horizon req)) in
  let buy_costs_total := buy_loop k mp (property_price req) (down_payment req) in
  let rent_costs_total := fst (rent_loop k (rent_growth req) 1 0 (monthly_rent req)) in
  let final_prop_val := property_price req * powf (1 + property_growth req / 100) (horizon req) in
  let net_buy := final_prop_val - buy_costs_total in
  let net_rent := down_payment req * powf 1.07 (horizon req) - rent_costs_total in
  match Chart.create_bar_chart "Капітал через горизонт" ["Купівля"; "Оренда"]
          [net_buy; net_rent] ["#2ecc71"; "#3498db"] with
  | None => None
  | Some chart =>
      Some {| net_buy_position := round2 net_buy;
              net_rent_position := round2 net_rent;
              recommendation := if gtb net_buy net_rent then "buy" else "rent";
              currency_symbol := get_currency_symbol (currency req);
              chart := chart |}
  end.

End BuyRent.

(* ------------------------------------------------------------------ *)
(** ** The request handler [main] (lib.rs, lines 7-123)

    The JSON decoding of a body ([req.json()], serde's [Deserialize]) and the
    encoding of a result ([serde_json::to_string], serde's [Serialize]) are
    the library's; they are the classes [FromJson] and [ToJson], left
    abstract.  The headers the worker library puts on [Response::ok] and
    [Response::error] are the parameter [plain_headers]. *)

Class FromJson (A : Type) := from_json : string -> A + string.
Class ToJson (A : Type) := to_json : A -> string.

Module Http.

Inductive Method := Head | Get | Post | Put | Patch | Delete | Options | Connect | Trace.

Definition method_eqb (m1 m2 : Method) : bool :=
  match m1, m2 with
  | Head, Head | Get, Get | Post, Post | Put, Put | Patch, Patch
  | Delete, Delete | Options, Options | Connect, Connect | Trace, Trace => true
  | _, _ => false
  end.

Record Request := {
  method : Method;
  path : string;
  body : string
}.

Record Response := {
  status : Z;
  headers : list (string * string);
  resp_body : string
}.

Definition cors_headers : list (string * string) :=
  [("Access-Control-Allow-Origin", "*");
   ("Access-Control-Allow-Methods", "GET, POST, OPTIONS");
   ("Access-Control-Allow-Headers", "Content-Type")].

Definition json_headers : list (string * string) :=
  [("Content-Type", "application/json"); ("Access-Control-Allow-Origin", "*")].

Section Handler.

Variable plain_headers : list (string * string).

Context `{FromJson Hourly.HourlyIncomeRequest} `{ToJson Hourly.HourlyIncomeResponse}.
Context `{FromJson TimeValue.TimeValueRequest} `{ToJson TimeValue.TimeValueResponse}.
Context `{FromJson Investment.InvestmentRequest} `{ToJson Investment.InvestmentResponse}.
Context `{FromJson Credit.CreditRequest} `{ToJson Credit.CreditResponse}.
Context `{FromJson Retirement.RetirementRequest} `{ToJson Retirement.RetirementResponse}.
Context `{FromJson Debt.DebtPayoffRequest} `{ToJson Debt.DebtPayoffResponse}.
Context `{FromJson Emergency.EmergencyFundRequest} `{ToJson Emergency.EmergencyFundResponse}.
Context `{FromJson Tax.TaxRequest} `{ToJson Tax.TaxResponse}.
Context `{FromJson BuyRent.BuyRentRequest} `{ToJson BuyRent.BuyRentResponse}.

(** [Response::empty()], [Response::ok(s)], [Response::error(msg, code)],
    [.with_headers(h)]. *)
Definition empty_response : Response :=
  {| status := 200; headers := plain_headers; resp_body := "" |}.
Definition ok_response (s : string) : Response :=
  {| status := 200; headers := plain_headers; resp_body := s |}.
Definition error_response (msg : string) (code : Z) : Response :=
  {| status := code; headers := plain_headers; resp_body := msg |}.
Definition with_headers (r : Response) (h : list (string * string)) : Response :=
  {| status := status r; headers := h; resp_body := resp_body r |}.

(** One calculator arm of the [match path.as_str()]; [None] is a panic of
    the calculator. *)
Definition respond {Req Resp : Type} `{FromJson Req} `{ToJson Resp}
    (body : string) (calc : Req -> option Resp) : option Response :=
  match from_json body : Req + string with
  | inr e => Some (error_response ("Bad Request: " ++ e) 400)
  | inl data =>
      match calc data with
      | None => None
      | Some result => Some (with_headers (ok_response (to_json result)) json_headers)
      end
  end.

Definition route_post (p : string) (b : string) : option Response :=
  if String.eqb p "/calculate/hourly-income" then respond b Hourly.calculate_hourly_income
  else if String.eqb p "/calculate/time-value" then respond b TimeValue.calculate_time_value
  else if String.eqb p "/calculate/investment" then respond b Investment.calculate_investment
  else if String.eqb p "/calculate/credit" then respond b Credit.calculate_credit
  else if String.eqb p "/calculate/retirement" then respond b Retirement.calculate_retirement
  else if String.eqb p "/calculate/debt-payoff" then respond b Debt.calculate_debt_payoff
  else if String.eqb p "/calculate/emergency-fund" then respond b Emergency.calculate_emergency_fund
  else if String.eqb p "/calculate/tax" then respond b Tax.calculate_tax
  else if String.eqb p "/calculate/buy-rent" then respond b BuyRent.calculate_buy_rent
  else Some (error_response "Not Found" 404).

Definition main (req : Request) : option Response :=
  if method_eqb (method req) Options then
    Some (with_headers empty_response cors_headers)
  else if method_eqb (method req) Get && String.eqb (path req) "/health" then
    Some (ok_response "OK")
  else if method_eqb (method req) Post then
    route_post (path req) (body req)
  else Some (error_response "Not Found" 404).

End Handler.

(** The nine calculator paths. *)
Definition calculator_paths : list string :=
  ["/calculate/hourly-income"; "/calculate/time-value"; "/calculate/investment";
   "/calculate/credit"; "/calculate/retirement"; "/calculate/debt-payoff";
   "/calculate/emergency-fund"; "/calculate/tax"; "/calculate/buy-rent"].

End Http.

(* ================================================================== *)
(** * Concrete inputs and the claims as written *)

Definition debt_sentinel (req : Debt.DebtPayoffRequest) : Debt.DebtPayoffResponse :=
  {| Debt.months := 999;
     Debt.total_paid := 0;
     Debt.total_interest := 0;
     Debt.currency_symbol := get_currency_symbol (Debt.currency req);
     Debt.chart := "<svg></svg>" |}.

Definition debt_req_stuck : Debt.DebtPayoffRequest :=
  {| Debt.balance := 10000; Debt.interest_rate := 12;
     Debt.monthly_payment := 50; Debt.extra_payment := 0;
     Debt.currency := "USD" |}.

Definition inv_req_fraction : Investment.InvestmentRequest :=
  {| Investment.initial_amount := 0; Investment.monthly_contribution := 100;
     Investment.annual_return := 0; Investment.period := 1 / 10;
     Investment.currency := "EUR" |}.

(** The claim as written: the future value is exactly
    [initial_amount + monthly_contribution * period * 12]. *)
Definition investment_exact_linear (req : Investment.InvestmentRequest) : Prop :=
  forall resp, Investment.calculate_investment req = Some resp ->
    Investment.future_value resp =
      Investment.initial_amount req
      + Investment.monthly_contribution req * (Investment.period req * 12).

Definition inv_req_negative : Investment.InvestmentRequest :=
  {| Investment.initial_amount := 1 / 1000; Investment.monthly_contribution := 0;
     Investment.annual_return := -12; Investment.period := 1;
     Investment.currency := "EUR" |}.

Definition credit_req_small : Credit.CreditRequest :=
  {| Credit.amount := 1 / 1000; Credit.rate := 5; Credit.term := 0;
     Credit.currency := "USD" |}.

Definition emergency_req_idle : Emergency.EmergencyFundRequest :=
  {| Emergency.monthly_expenses := 1000; Emergency.months_coverage := 6;
     Emergency.current_savings := 2500; Emergency.monthly_contribution := 0;
     Emergency.currency := "UAH" |}.

(** The unrounded month count of line 215, [ln(p/(p - balance*r)) / ln(1+r)]. *)
Definition continuous_months (req : Debt.DebtPayoffRequest) : R :=
  let r := Debt.interest_rate req / 100 / 12 in
  let p := Debt.monthly_payment req + Debt.extra_payment req in
  ln (p / (p - Debt.balance req * r)) / ln (1 + r).

(** A request whose count [m] is exactly one half: [r = 3], [p = 6],
    [balance = 1], so [m = ln 2 / ln 4]. *)
Definition debt_req_half : Debt.DebtPayoffRequest :=
  {| Debt.balance := 1; Debt.interest_rate := 3600;
     Debt.monthly_payment := 6; Debt.extra_payment := 0;
     Debt.currency := "EUR" |}.

(** The claim as written: [months] is the ceiling and [total_paid],
    [total_interest] are computed from that integer month count. *)
Definition debt_totals_from_ceiling (req : Debt.DebtPayoffRequest) : Prop :=
  let p := Debt.monthly_payment req + Debt.extra_payment req in
  forall resp, Debt.calculate_debt_payoff req = Some resp ->
    Debt.months resp = ceil_z (continuous_months req) /\
    Debt.total_paid resp = round2 (p * IZR (Debt.months resp)) /\
    Debt.total_interest resp = round2 (p * IZR (Debt.months resp) - Debt.balance req).

Definition emergency_req_thirds : Emergency.EmergencyFundRequest :=
  {| Emergency.monthly_expenses := 1000; Emergency.months_coverage := 1;
     Emergency.current_savings := 0; Emergency.monthly_contribution := 300;
     Emergency.currency := "EUR" |}.

(** The claim as written, for the emergency fund: outside the sentinel,
    [months_to_target] is the integer ceiling of the continuous count. *)
Definition emergency_months_integer_ceiling (req : Emergency.EmergencyFundRequest) : Prop :=
  forall resp, Emergency.calculate_emergency_fund req = Some resp ->
    exists z : Z, Emergency.months_to_target resp = IZR z /\
      z = ceil_z (fmax (Emergency.monthly_expenses req * Emergency.months_coverage req
                        - Emergency.current_savings req) 0
                  / Emergency.monthly_contribution req).

Definition chart_bars_zero : list Chart.Bar :=
  Chart.layout_bars 0 150 (Chart.scale [0; 0]) [] (combine ["a"; "b"] [0; 0]).

(** The claim as written: heights are [round(values[i] * scale)]. *)
Definition bar_heights_rounded (labels : list string) (values : list R)
    (colors : list string) : Prop :=
  forall bars, Chart.layout labels values colors = Some bars ->
  forall i v b, nth_error values i = Some v -> nth_error bars i = Some b ->
    Chart.bar_h b = round_z (v * Chart.scale values).

(** Exact rational powers, to evaluate [(1 + r)^n] on concrete inputs. *)
Fixpoint qpow (q : Q) (n : nat) : Q :=
  match n with
  | O => 1 # 1
  | S k => (q * qpow q k)%Q
  end.

Definition annuity_factorQ : Q := qpow (241 # 240) 360.

(** The monthly payment of the example, [100000 * r * (1+r)^360 / ((1+r)^360 - 1)]
    with [r = 1/240], as a rational. *)
Definition example_pmtQ : Q :=
  ((100000 # 1) * ((1 # 240) * annuity_factorQ) / (annuity_factorQ - (1 # 1)))%Q.

Definition credit_req_example : Credit.CreditRequest :=
  {| Credit.amount := 100000; Credit.rate := 5; Credit.term := 30;
     Credit.currency := "EUR" |}.

(* ================================================================== *)
(** * Definitions used by the further properties *)

(** [1 + q + ... + q^(y-1)]: the yearly rent factors summed over [y] years. *)
Fixpoint geom (q : R) (y : nat) : R :=
  match y with
  | O => 0
  | S y' => geom q y' + q ^ y'
  end.

Module Routing.

Section Decode.

Context `{FromJson Hourly.HourlyIncomeRequest} `{FromJson TimeValue.TimeValueRequest}.
Context `{FromJson Investment.InvestmentRequest} `{FromJson Credit.CreditRequest}.
Context `{FromJson Retirement.RetirementRequest} `{FromJson Debt.DebtPayoffRequest}.
Context `{FromJson Emergency.EmergencyFundRequest} `{FromJson Tax.TaxRequest}.
Context `{FromJson BuyRent.BuyRentRequest}.

(** The error of [req.json()] for the request type of a path, if any. *)
Definition decode_result (Req : Type) `{FromJson Req} (b : string) : option string :=
  match from_json b : Req + string with
  | inr e => Some e
  | inl _ => None
  end.

(** The request type [route_post] decodes for each calculator path. *)
Definition decode_error (p b : string) : option string :=
  if String.eqb p "/calculate/hourly-income" then decode_result Hourly.HourlyIncomeRequest b
  else if String.eqb p "/calculate/time-value" then decode_result TimeValue.TimeValueRequest b
  else if String.eqb p "/calculate/investment" then decode_result Investment.InvestmentRequest b
  else if String.eqb p "/calculate/credit" then decode_result Credit.CreditRequest b
  else if String.eqb p "/calculate/retirement" then decode_result Retirement.RetirementRequest b
  else if String.eqb p "/calculate/debt-payoff" then decode_result Debt.DebtPayoffRequest b
  else if String.eqb p "/calculate/emergency-fund" then decode_result Emergency.EmergencyFundRequest b
  else if String.eqb p "/calculate/tax" then decode_result Tax.TaxRequest b
  else if String.eqb p "/calculate/buy-rent" then decode_result BuyRent.BuyRentRequest b
  else None.

End Decode.

End Routing.

(** Sample requests. *)
Definition hourly_req_sample : Hourly.HourlyIncomeRequest :=
  {| Hourly.monthly_income := 20000; Hourly.taxes := 20; Hourly.work_hours := 160;
     Hourly.commute_time := 20; Hourly.work_expenses := 1000;
     Hourly.currency := "UAH" |}.

Definition hourly_req_free : Hourly.HourlyIncomeRequest :=
  {| Hourly.monthly_income := 20000; Hourly.taxes := 0; Hourly.work_hours := 160;
     Hourly.commute_time := 0; Hourly.work_expenses := 0;
     Hourly.currency := "UAH" |}.


Definition inv_req_growth : Investment.InvestmentRequest :=
  {| Investment.initial_amount := 1000; Investment.monthly_contribution := 100;
     Investment.annual_return := 8; Investment.period := 10;
     Investment.currency := "USD" |}.

Definition inv_req_flat : Investment.InvestmentRequest :=
  {| Investment.initial_amount := 1000; Investment.monthly_contribution := 100;
     Investment.annual_return := -3; Investment.period := 10;
     Investment.currency := "USD" |}.

Definition credit_req_free : Credit.CreditRequest :=
  {| Credit.amount := 1200; Credit.rate := 0; Credit.term := 1;
     Credit.currency := "EUR" |}.

Definition credit_req_loan : Credit.CreditRequest :=
  {| Credit.amount := 10000; Credit.rate := 10; Credit.term := 2;
     Credit.currency := "EUR" |}.

Definition retirement_req_flat : Retirement.RetirementRequest :=
  {| Retirement.current_age := 30; Retirement.retirement_age := 60;
     Retirement.desired_income := 1000; Retirement.current_savings := 5000;
     Retirement.monthly_savings := 200; Retirement.expected_return := 0;
     Retirement.currency := "EUR" |}.

Definition retirement_req_growth : Retirement.RetirementRequest :=
  {| Retirement.current_age := 30; Retirement.retirement_age := 60;
     Retirement.desired_income := 1000; Retirement.current_savings := 5000;
     Retirement.monthly_savings := 200; Retirement.expected_return := 6;
     Retirement.currency := "EUR" |}.

Definition tax_req_sample : Tax.TaxRequest :=
  {| Tax.income := 50000; Tax.tax_rate := 20; Tax.currency := "EUR" |}.

Definition buy_rent_req_sample : BuyRent.BuyRentRequest :=
  {| BuyRent.property_price := 100000; BuyRent.down_payment := 20000;
     BuyRent.mortgage_rate := 5; BuyRent.mortgage_term := 20;
     BuyRent.monthly_rent := 800; BuyRent.rent_growth := 3;
     BuyRent.property_growth := 2; BuyRent.horizon := 10;
     BuyRent.currency := "EUR" |}.

(** Sample codecs for the handler: every body is rejected, except that
    [tax_decode] reads [tax_req_sample]. *)
Definition reject_decode {A : Type} : FromJson A := fun _ => inr "expected value".
Definition plain_encode {A : Type} : ToJson A := fun _ => "{}".
Definition tax_decode : FromJson Tax.TaxRequest := fun _ => inl tax_req_sample.

(** The handler with the sample codecs. *)
Definition demo_main : Http.Request -> option Http.Response :=
  @Http.main []
    reject_decode plain_encode reject_decode plain_encode
    reject_decode plain_encode reject_decode plain_encode
    reject_decode plain_encode reject_decode plain_encode
    reject_decode plain_encode tax_decode plain_encode
    reject_decode plain_encode.

(** A sample chart: three bars, one colour given. *)
Definition demo_labels : list string := ["a"; "b"; "c"].
Definition demo_values : list R := [1; 3; 2].
Definition demo_colors : list string := ["#ff0000"].

Definition demo_bars : list Chart.Bar :=
  match Chart.layout demo_labels demo_values demo_colors with
  | Some bars => bars
  | None => []
  end.

Definition demo_bar1 : Chart.Bar :=
  nth 1 demo_bars
    {| Chart.bar_x := 0; Chart.bar_y := 0; Chart.bar_w := 0; Chart.bar_h := 0;
       Chart.bar_color := ""; Chart.bar_label := ""; Chart.bar_value := 0 |}.

(* ================================================================== *)
(** * Facts about the machine-number model *)

Module Facts.

Lemma floor_z_spec (x : R) (z : Z) :
  IZR z <= x < IZR z + 1 -> floor_z x = z.
Proof.
  intros [Hlo Hhi]. unfold floor_z, Int_part.
  assert (Hup : (z + 1)%Z = up x).
  { apply tech_up; rewrite plus_IZR; lra. }
  lia.
Qed.

Lemma floor_z_IZR (z : Z) : floor_z (IZR z) = z.
Proof. apply floor_z_spec; lra. Qed.

Lemma round_z_nonneg (x : R) (z : Z) :
  0 <= x -> IZR z - / 2 <= x < IZR z + / 2 -> round_z x = z.
Proof.
  intros H0 [Hlo Hhi]. unfold round_z.
  destruct (Rle_dec 0 x) as [_|Hn]; [|lra].
  apply floor_z_spec; lra.
Qed.

Lemma round_z_neg (x : R) (z : Z) :
  x < 0 -> IZR z - / 2 < x <= IZR z + / 2 -> round_z x = z.
Proof.
  intros H0 [Hlo Hhi]. unfold round_z.
  destruct (Rle_dec 0 x) as [Hn|_]; [lra|].
  rewrite (floor_z_spec _ (- z)); [lia|].
  rewrite opp_IZR; lra.
Qed.

Lemma round_z_IZR (z : Z) : round_z (IZR z) = z.
Proof.
  destruct (Rle_dec 0 (IZR z)).
  - apply round_z_nonneg; lra.
  - apply round_z_neg; lra.
Qed.

Lemma round2_IZR (z : Z) : round2 (IZR z) = IZR z.
Proof.
  unfold round2, round.
  rewrite <- mult_IZR, round_z_IZR, mult_IZR. field.
Qed.

Lemma round1_IZR (z : Z) : round1 (IZR z) = IZR z.
Proof.
  unfold round1, round.
  rewrite <- mult_IZR, round_z_IZR, mult_IZR. field.
Qed.

Lemma round2_0 : round2 0 = 0.
Proof. exact (round2_IZR 0). Qed.

Lemma trunc_z_nonneg (x : R) (z : Z) :
  0 <= x -> IZR z <= x < IZR z + 1 -> trunc_z x = z.
Proof.
  intros H0 Hb. unfold trunc_z.
  destruct (Rle_dec 0 x); [apply floor_z_spec; exact Hb | lra].
Qed.

Lemma as_i32_small (x : R) (z : Z) :
  0 <= x -> IZR z <= x < IZR z + 1 -> (z <= i32_max)%Z -> as_i32 x = z.
Proof.
  intros H0 Hb Hm. unfold as_i32.
  rewrite (trunc_z_nonneg x z H0 Hb).
  assert ((-1 < z)%Z) by (apply lt_IZR; lra).
  unfold i32_min. lia.
Qed.

Lemma gtb_true (x y : R) : y < x -> gtb x y = true.
Proof. intros H. unfold gtb. destruct (Rlt_dec y x); [reflexivity | lra]. Qed.

Lemma gtb_false (x y : R) : x <= y -> gtb x y = false.
Proof. intros H. unfold gtb. destruct (Rlt_dec y x); [lra | reflexivity]. Qed.

Lemma leb_true (x y : R) : x <= y -> leb x y = true.
Proof. intros H. unfold leb. destruct (Rle_dec x y); [reflexivity | lra]. Qed.

Lemma leb_false (x y : R) : y < x -> leb x y = false.
Proof. intros H. unfold leb. destruct (Rle_dec x y); [lra | reflexivity]. Qed.

(** The calculators draw two bars: the renderer does not panic. *)
Lemma chart_two_some (t a b : string) (vs : list R) (cs : list string) :
  Chart.create_bar_chart t [a; b] vs cs <> None.
Proof.
  unfold Chart.create_bar_chart, Chart.layout, Chart.bar_width. simpl.
  discriminate.
Qed.

End Facts.

Import Facts.

(** Eliminates the chart match of a calculator drawing two bars. *)
Ltac chart_some :=
  match goal with
  | |- context [Chart.create_bar_chart ?t [?a; ?b] ?vs ?cs] =>
      let E := fresh "E" in
      destruct (Chart.create_bar_chart t [a; b] vs cs) eqn:E;
      [ | exfalso; exact (chart_two_some t a b vs cs E) ]
  end.

(* ================================================================== *)
(** * Currency symbol *)

(** C6: [get_currency_symbol] is the spec's table lookup: EUR to the
    Euro sign, USD to the dollar sign, UAH to the hryvnia sign, BTC to the
    bitcoin sign, and the Euro sign for every other string. *)
Theorem currency_symbol_table (s : string) :
  get_currency_symbol s = spec_currency_symbol s.
Proof.
  unfold get_currency_symbol, spec_currency_symbol. simpl.
  destruct (String.eqb s "EUR"); [reflexivity|].
  destruct (String.eqb s "USD"); [reflexivity|].
  destruct (String.eqb s "UAH"); [reflexivity|].
  destruct (String.eqb s "BTC"); reflexivity.
Qed.

(* ================================================================== *)
(** * Debt payoff: the sentinel branch *)

(** C1: when [monthly_payment + extra_payment <= balance * (interest_rate/100/12)]
    the response is the sentinel (months 999, nothing paid, no interest,
    the minimal chart [<svg></svg>]); the logarithm plays no part. *)
Theorem debt_payoff_sentinel (req : Debt.DebtPayoffRequest) :
  Debt.monthly_payment req + Debt.extra_payment req
    <= Debt.balance req * (Debt.interest_rate req / 100 / 12) ->
  Debt.calculate_debt_payoff req = Some (debt_sentinel req).
Proof.
  intros H. unfold Debt.calculate_debt_payoff. cbv zeta.
  rewrite (leb_true _ _ H). reflexivity.
Qed.

Lemma debt_payoff_sentinel_witness :
  Debt.monthly_payment debt_req_stuck + Debt.extra_payment debt_req_stuck
    <= Debt.balance debt_req_stuck * (Debt.interest_rate debt_req_stuck / 100 / 12)
  /\ exists resp, Debt.calculate_debt_payoff debt_req_stuck = Some resp
       /\ Debt.months resp = 999%Z /\ Debt.total_paid resp = 0
       /\ Debt.total_interest resp = 0.
Proof.
  assert (H : Debt.monthly_payment debt_req_stuck + Debt.extra_payment debt_req_stuck
    <= Debt.balance debt_req_stuck * (Debt.interest_rate debt_req_stuck / 100 / 12))
    by (simpl; lra).
  split; [exact H|].
  exists (debt_sentinel debt_req_stuck).
  split; [apply (debt_payoff_sentinel debt_req_stuck H)|].
  repeat split; reflexivity.
Defined.

(* ================================================================== *)
(** * Investment: the linear branch *)

(** With a monthly rate [r <= 0] the test [r > 0.0] fails and the future
    value is the linear sum over the truncated month count. *)
Lemma investment_linear_branch (req : Investment.InvestmentRequest) :
  Investment.annual_return req <= 0 ->
  exists resp, Investment.calculate_investment req = Some resp /\
    Investment.future_value resp =
      round2 (Investment.initial_amount req
              + Investment.monthly_contribution req
                * IZR (as_i32 (Investment.period req * 12))).
Proof.
  intros H. unfold Investment.calculate_investment. cbv zeta.
  rewrite (gtb_false (Investment.annual_return req / 100 / 12) 0) by lra.
  chart_some. eexists; split; reflexivity.
Qed.

(** C3 (as amended): with [annual_return = 0] the linear branch is taken:
    [future_value] is [initial_amount + monthly_contribution * n] rounded to
    two decimals, where [n = (period * 12) as i32] (truncated). *)
Theorem investment_zero_rate (req : Investment.InvestmentRequest) :
  Investment.annual_return req = 0 ->
  exists resp, Investment.calculate_investment req = Some resp /\
    Investment.future_value resp =
      round2 (Investment.initial_amount req
              + Investment.monthly_contribution req
                * IZR (as_i32 (Investment.period req * 12))).
Proof.
  intros H. apply investment_linear_branch. lra.
Qed.

Lemma investment_zero_rate_witness :
  Investment.annual_return inv_req_fraction = 0 /\
  exists resp, Investment.calculate_investment inv_req_fraction = Some resp /\
    Investment.future_value resp =
      round2 (Investment.initial_amount inv_req_fraction
              + Investment.monthly_contribution inv_req_fraction
                * IZR (as_i32 (Investment.period inv_req_fraction * 12))).
Proof.
  split; [reflexivity|]. apply investment_zero_rate. reflexivity.
Defined.

(** C3 fails for [period = 0.1]: the month count [1.2] is truncated to [1],
    so the future value is [100], not [120]. *)
Lemma investment_zero_rate_counterexample :
  Investment.annual_return inv_req_fraction = 0 /\
  ~ investment_exact_linear inv_req_fraction.
Proof.
  split; [reflexivity|]. intros Hc.
  destruct (investment_linear_branch inv_req_fraction) as [resp [Hr Hfv]];
    [simpl; lra|].
  specialize (Hc resp Hr). rewrite Hc in Hfv. simpl in Hfv.
  rewrite (as_i32_small (1 / 10 * 12) 1) in Hfv;
    [| lra | lra | unfold i32_max; lia].
  replace (0 + 100 * IZR 1) with (IZR 100) in Hfv by (simpl; lra).
  rewrite round2_IZR in Hfv. lra.
Qed.

(** C10 (as amended): with [annual_return < 0] the linear branch is also
    taken: [future_value] is [initial_amount + monthly_contribution * n]
    rounded to two decimals, [n = (period * 12) as i32]. *)
Theorem investment_negative_rate (req : Investment.InvestmentRequest) :
  Investment.annual_return req < 0 ->
  exists resp, Investment.calculate_investment req = Some resp /\
    Investment.future_value resp =
      round2 (Investment.initial_amount req
              + Investment.monthly_contribution req
                * IZR (as_i32 (Investment.period req * 12))).
Proof.
  intros H. apply investment_linear_branch. lra.
Qed.

Lemma investment_negative_rate_witness :
  Investment.annual_return inv_req_negative < 0 /\
  exists resp, Investment.calculate_investment inv_req_negative = Some resp /\
    Investment.future_value resp =
      round2 (Investment.initial_amount inv_req_negative
              + Investment.monthly_contribution inv_req_negative
                * IZR (as_i32 (Investment.period inv_req_negative * 12))).
Proof.
  assert (H : Investment.annual_return inv_req_negative < 0) by (simpl; lra).
  split; [exact H|]. apply (investment_negative_rate inv_req_negative H).
Defined.

(** C10 fails for [initial_amount = 0.001]: the future value is rounded to
    two decimals and reads [0]. *)
Lemma investment_negative_rate_counterexample :
  Investment.annual_return inv_req_negative < 0 /\
  ~ investment_exact_linear inv_req_negative.
Proof.
  split; [simpl; lra|]. intros Hc.
  destruct (investment_linear_branch inv_req_negative) as [resp [Hr Hfv]];
    [simpl; lra|].
  specialize (Hc resp Hr). rewrite Hc in Hfv. simpl in Hfv.
  rewrite (as_i32_small (1 * 12) 12) in Hfv;
    [| lra | lra | unfold i32_max; lia].
  unfold round2, round in Hfv.
  rewrite (round_z_nonneg _ 0) in Hfv; [| lra | split; lra].
  lra.
Qed.

(* ================================================================== *)
(** * Credit with a zero term *)

(** C9 (as amended): with [term = 0] no division happens: the monthly
    payment and the total are [0] and the overpayment is [-amount] rounded
    to two decimals. *)
Theorem credit_zero_term (req : Credit.CreditRequest) :
  Credit.term req = 0 ->
  exists resp, Credit.calculate_credit req = Some resp /\
    Credit.monthly_payment resp = 0 /\ Credit.total_payment resp = 0 /\
    Credit.overpayment resp = round2 (- Credit.amount req).
Proof.
  intros H. unfold Credit.calculate_credit. cbv zeta. rewrite H.
  rewrite (gtb_false (0 * 12) 0) by lra. rewrite andb_false_r.
  chart_some. eexists; split; [reflexivity|]. simpl.
  rewrite round2_0.
  replace (0 * (0 * 12)) with 0 by ring. rewrite round2_0.
  replace (0 - Credit.amount req) with (- Credit.amount req) by ring.
  repeat split; reflexivity.
Qed.

Lemma credit_zero_term_witness :
  Credit.term credit_req_small = 0 /\
  exists resp, Credit.calculate_credit credit_req_small = Some resp /\
    Credit.monthly_payment resp = 0 /\ Credit.total_payment resp = 0 /\
    Credit.overpayment resp = round2 (- Credit.amount credit_req_small).
Proof.
  split; [reflexivity|]. apply credit_zero_term. reflexivity.
Defined.

(** C9 as written says the overpayment is exactly [-amount]; for
    [amount = 0.001] the reported overpayment is [0]. *)
Lemma credit_zero_term_counterexample :
  Credit.term credit_req_small = 0 /\
  exists resp, Credit.calculate_credit credit_req_small = Some resp /\
    Credit.overpayment resp = 0 /\
    Credit.overpayment resp <> - Credit.amount credit_req_small.
Proof.
  split; [reflexivity|].
  destruct (credit_zero_term credit_req_small) as [resp [Hr [_ [_ Ho]]]];
    [reflexivity|].
  exists resp. split; [exact Hr|].
  assert (H0 : Credit.overpayment resp = 0).
  { rewrite Ho. simpl. unfold round2, round.
    rewrite (round_z_neg _ 0); [| lra | split; lra]. lra. }
  split; [exact H0|]. rewrite H0. simpl. lra.
Qed.

(* ================================================================== *)
(** * Emergency fund without contributions *)

(** C8: with [monthly_contribution <= 0] the months-to-target field is the
    sentinel [-1], while the target and the remaining amount are computed
    and rounded as in the other branch. *)
Theorem emergency_no_contribution (req : Emergency.EmergencyFundRequest) :
  Emergency.monthly_contribution req <= 0 ->
  exists resp, Emergency.calculate_emergency_fund req = Some resp /\
    Emergency.months_to_target resp = -1 /\
    Emergency.target_amount resp =
      round2 (Emergency.monthly_expenses req * Emergency.months_coverage req) /\
    Emergency.remaining_amount resp =
      round2 (fmax (Emergency.monthly_expenses req * Emergency.months_coverage req
                    - Emergency.current_savings req) 0).
Proof.
  intros H. unfold Emergency.calculate_emergency_fund. cbv zeta.
  rewrite (gtb_false _ 0 H).
  chart_some. eexists; split; [reflexivity|]. simpl.
  rewrite round1_IZR. repeat split; reflexivity.
Qed.

Lemma emergency_no_contribution_witness :
  Emergency.monthly_contribution emergency_req_idle <= 0 /\
  exists resp, Emergency.calculate_emergency_fund emergency_req_idle = Some resp /\
    Emergency.months_to_target resp = -1 /\
    Emergency.target_amount resp =
      round2 (Emergency.monthly_expenses emergency_req_idle
              * Emergency.months_coverage emergency_req_idle) /\
    Emergency.remaining_amount resp =
      round2 (fmax (Emergency.monthly_expenses emergency_req_idle
                    * Emergency.months_coverage emergency_req_idle
                    - Emergency.current_savings emergency_req_idle) 0).
Proof.
  assert (H : Emergency.monthly_contribution emergency_req_idle <= 0)
    by (simpl; lra).
  split; [exact H|]. apply (emergency_no_contribution emergency_req_idle H).
Defined.

(* ================================================================== *)
(** * Debt payoff: the amortizing branch *)

Lemma debt_amortizing_branch (req : Debt.DebtPayoffRequest) :
  let p := Debt.monthly_payment req + Debt.extra_payment req in
  Debt.balance req * (Debt.interest_rate req / 100 / 12) < p ->
  exists resp, Debt.calculate_debt_payoff req = Some resp /\
    Debt.months resp = as_u32 (ceil (continuous_months req)) /\
    Debt.total_paid resp = round2 (p * continuous_months req) /\
    Debt.total_interest resp = round2 (p * continuous_months req - Debt.balance req).
Proof.
  intros p H. unfold Debt.calculate_debt_payoff, continuous_months, p in *. cbv zeta.
  rewrite (leb_false _ _ H).
  chart_some. eexists; split; [reflexivity|]. repeat split; reflexivity.
Qed.

(** C4 (as amended): for a positive interest rate and a non-negative
    balance, when [p = monthly_payment + extra_payment] exceeds
    [balance * r], [months] is the ceiling of the unrounded count [m]
    (saturated to [u32]), while [total_paid] is [p * m] with the unrounded
    [m] and [total_interest] is [p * m - balance], both rounded to two
    decimals. *)
Theorem debt_payoff_amortizing (req : Debt.DebtPayoffRequest) :
  0 < Debt.interest_rate req -> 0 <= Debt.balance req ->
  Debt.balance req * (Debt.interest_rate req / 100 / 12)
    < Debt.monthly_payment req + Debt.extra_payment req ->
  exists resp, Debt.calculate_debt_payoff req = Some resp /\
    Debt.months resp = as_u32 (ceil (continuous_months req)) /\
    Debt.total_paid resp =
      round2 ((Debt.monthly_payment req + Debt.extra_payment req)
              * continuous_months req) /\
    Debt.total_interest resp =
      round2 ((Debt.monthly_payment req + Debt.extra_payment req)
              * continuous_months req - Debt.balance req).
Proof.
  intros _ _ H. exact (debt_amortizing_branch req H).
Qed.

Lemma continuous_months_half : continuous_months debt_req_half = / 2.
Proof.
  unfold continuous_months; simpl.
  replace (3600 / 100 / 12) with 3 by field.
  replace ((6 + 0) / (6 + 0 - 1 * 3)) with 2 by field.
  replace (1 + 3) with (2 * 2) by ring.
  assert (Hl : 0 < ln 2) by (rewrite <- ln_1; apply ln_increasing; lra).
  rewrite ln_mult by lra. field. lra.
Qed.

Lemma debt_payoff_amortizing_witness :
  0 < Debt.interest_rate debt_req_half /\ 0 <= Debt.balance debt_req_half /\
  Debt.balance debt_req_half * (Debt.interest_rate debt_req_half / 100 / 12)
    < Debt.monthly_payment debt_req_half + Debt.extra_payment debt_req_half /\
  exists resp, Debt.calculate_debt_payoff debt_req_half = Some resp /\
    Debt.months resp = as_u32 (ceil (continuous_months debt_req_half)) /\
    Debt.total_paid resp =
      round2 ((Debt.monthly_payment debt_req_half + Debt.extra_payment debt_req_half)
              * continuous_months debt_req_half) /\
    Debt.total_interest resp =
      round2 ((Debt.monthly_payment debt_req_half + Debt.extra_payment debt_req_half)
              * continuous_months debt_req_half - Debt.balance debt_req_half).
Proof.
  assert (H1 : 0 < Debt.interest_rate debt_req_half) by (simpl; lra).
  assert (H2 : 0 <= Debt.balance debt_req_half) by (simpl; lra).
  assert (H3 : Debt.balance debt_req_half * (Debt.interest_rate debt_req_half / 100 / 12)
    < Debt.monthly_payment debt_req_half + Debt.extra_payment debt_req_half)
    by (simpl; lra).
  split; [exact H1|]. split; [exact H2|]. split; [exact H3|].
  exact (debt_payoff_amortizing debt_req_half H1 H2 H3).
Defined.

(** C4 fails at [debt_req_half]: [months] is [1] but [total_paid] is
    [6 * 0.5 = 3], not [6 * 1 = 6]. *)
Lemma debt_payoff_amortizing_counterexample :
  Debt.balance debt_req_half * (Debt.interest_rate debt_req_half / 100 / 12)
    < Debt.monthly_payment debt_req_half + Debt.extra_payment debt_req_half /\
  ~ debt_totals_from_ceiling debt_req_half.
Proof.
  assert (H3 : Debt.balance debt_req_half * (Debt.interest_rate debt_req_half / 100 / 12)
    < Debt.monthly_payment debt_req_half + Debt.extra_payment debt_req_half)
    by (simpl; lra).
  split; [exact H3|]. intros Hc.
  destruct (debt_amortizing_branch debt_req_half H3) as [resp [Hr [Hm [Ht _]]]].
  destruct (Hc resp Hr) as [_ [Ht' _]].
  rewrite continuous_months_half in Hm, Ht.
  assert (Hceil : ceil_z (/ 2) = 1%Z).
  { unfold ceil_z. rewrite (floor_z_spec _ (-1)); [reflexivity | lra]. }
  unfold ceil in Hm. rewrite Hceil in Hm.
  unfold as_u32 in Hm. rewrite (trunc_z_nonneg _ 1) in Hm; [| lra | lra].
  unfold u32_max in Hm.
  replace (Z.max 0 (Z.min 1 (2 ^ 32 - 1))) with 1%Z in Hm by reflexivity.
  rewrite Hm in Ht'. simpl in Ht, Ht'.
  replace ((6 + 0) * / 2) with (IZR 3) in Ht by field.
  replace ((6 + 0) * 1) with (IZR 6) in Ht' by ring.
  rewrite round2_IZR in Ht, Ht'. rewrite Ht in Ht'.
  apply eq_IZR in Ht'. discriminate.
Qed.

(* ================================================================== *)
(** * Month-count fields *)

Lemma emergency_contribution_branch (req : Emergency.EmergencyFundRequest) :
  0 < Emergency.monthly_contribution req ->
  exists resp, Emergency.calculate_emergency_fund req = Some resp /\
    Emergency.months_to_target resp =
      round1 (fmax (Emergency.monthly_expenses req * Emergency.months_coverage req
                    - Emergency.current_savings req) 0
              / Emergency.monthly_contribution req).
Proof.
  intros H. unfold Emergency.calculate_emergency_fund. cbv zeta.
  rewrite (gtb_true _ 0 H).
  chart_some. eexists; split; reflexivity.
Qed.

(** C7 (as amended): outside the sentinels, the debt-payoff [months] is the
    ceiling of the continuous count (saturated to [u32]), whereas the
    emergency-fund [months_to_target] is [remaining / monthly_contribution]
    rounded to one decimal place. *)
Theorem month_count_fields (d : Debt.DebtPayoffRequest)
    (e : Emergency.EmergencyFundRequest) :
  Debt.balance d * (Debt.interest_rate d / 100 / 12)
    < Debt.monthly_payment d + Debt.extra_payment d ->
  0 < Emergency.monthly_contribution e ->
  (exists rd, Debt.calculate_debt_payoff d = Some rd /\
     Debt.months rd = as_u32 (ceil (continuous_months d))) /\
  (exists re, Emergency.calculate_emergency_fund e = Some re /\
     Emergency.months_to_target re =
       round1 (fmax (Emergency.monthly_expenses e * Emergency.months_coverage e
                     - Emergency.current_savings e) 0
               / Emergency.monthly_contribution e)).
Proof.
  intros Hd He. split.
  - destruct (debt_amortizing_branch d Hd) as [rd [Hr [Hm _]]].
    exists rd. split; assumption.
  - exact (emergency_contribution_branch e He).
Qed.

Lemma month_count_fields_witness :
  Debt.balance debt_req_half * (Debt.interest_rate debt_req_half / 100 / 12)
    < Debt.monthly_payment debt_req_half + Debt.extra_payment debt_req_half /\
  0 < Emergency.monthly_contribution emergency_req_thirds /\
  (exists rd, Debt.calculate_debt_payoff debt_req_half = Some rd /\
     Debt.months rd = as_u32 (ceil (continuous_months debt_req_half))) /\
  (exists re, Emergency.calculate_emergency_fund emergency_req_thirds = Some re /\
     Emergency.months_to_target re =
       round1 (fmax (Emergency.monthly_expenses emergency_req_thirds
                     * Emergency.months_coverage emergency_req_thirds
                     - Emergency.current_savings emergency_req_thirds) 0
               / Emergency.monthly_contribution emergency_req_thirds)).
Proof.
  assert (Hd : Debt.balance debt_req_half * (Debt.interest_rate debt_req_half / 100 / 12)
    < Debt.monthly_payment debt_req_half + Debt.extra_payment debt_req_half)
    by (simpl; lra).
  assert (He : 0 < Emergency.monthly_contribution emergency_req_thirds)
    by (simpl; lra).
  split; [exact Hd|]. split; [exact He|].
  exact (month_count_fields debt_req_half emergency_req_thirds Hd He).
Defined.

(** C7 fails for the emergency fund: [1000 / 300] is reported as [3.3],
    which is not an integer (its ceiling would be [4]). *)
Lemma month_count_fields_counterexample :
  0 < Emergency.monthly_contribution emergency_req_thirds /\
  ~ emergency_months_integer_ceiling emergency_req_thirds.
Proof.
  split; [simpl; lra|]. intros Hc.
  destruct (emergency_contribution_branch emergency_req_thirds) as [re [Hr Hm]];
    [simpl; lra|].
  destruct (Hc re Hr) as [z [Hz _]].
  simpl in Hm. unfold fmax in Hm.
  rewrite Rmax_left in Hm by lra.
  unfold round1, round in Hm.
  rewrite (round_z_nonneg _ 33) in Hm; [| lra | split; lra].
  rewrite Hz in Hm.
  assert (H3 : (3 < z)%Z) by (apply lt_IZR; lra).
  assert (H4 : (z < 4)%Z) by (apply lt_IZR; lra).
  lia.
Qed.

(* ================================================================== *)
(** * Chart renderer: bar heights *)

Section BarHeights.

Variable bw : Z.
Variable sc : R.
Variable colors : list string.

Lemma layout_bars_nth (lv : list (string * R)) (k i : nat) (b : Chart.Bar) :
  nth_error (Chart.layout_bars k bw sc colors lv) i = Some b ->
  exists lab v, nth_error lv i = Some (lab, v) /\ Chart.bar_h b = as_i32 (v * sc).
Proof.
  revert k i. induction lv as [|[lab v] lv IH]; intros k i Hb.
  - destruct i; discriminate.
  - destruct i as [|i]; simpl in Hb.
    + injection Hb as <-. exists lab, v. split; reflexivity.
    + exact (IH (S k) i Hb).
Qed.

End BarHeights.

Lemma combine_nth_snd {A B : Type} (l1 : list A) (l2 : list B) (i : nat) (a : A) (v : B) :
  nth_error (combine l1 l2) i = Some (a, v) -> nth_error l2 i = Some v.
Proof.
  revert l2 i. induction l1 as [|x l1 IH]; intros l2 i H.
  - destruct i; discriminate.
  - destruct l2 as [|y l2]; [destruct i; discriminate|].
    destruct i as [|i]; simpl in H.
    + injection H as -> ->. reflexivity.
    + exact (IH l2 i H).
Qed.

(** Each drawn bar has height [(values[i] * scale) as i32]. *)
Lemma bar_height_nth (labels : list string) (values : list R) (colors : list string)
    (bars : list Chart.Bar) :
  Chart.layout labels values colors = Some bars ->
  forall i v b, nth_error values i = Some v -> nth_error bars i = Some b ->
  Chart.bar_h b = as_i32 (v * Chart.scale values).
Proof.
  unfold Chart.layout. destruct (Chart.bar_width labels) as [bw|]; [|discriminate].
  intros Hl i v b Hv Hb. injection Hl as <-.
  destruct (layout_bars_nth _ _ _ _ _ _ _ Hb) as [lab [v' [Hlv Hh]]].
  apply combine_nth_snd in Hlv. rewrite Hv in Hlv. injection Hlv as <-.
  exact Hh.
Qed.

Lemma fold_fmax_zeros (values : list R) (acc : R) :
  acc = 0 -> Forall (fun x => x = 0) values -> fold_left fmax values acc = 0.
Proof.
  revert acc. induction values as [|x l IH]; intros acc Ha Hz; simpl.
  - exact Ha.
  - inversion Hz as [|x' l' Hx Hl]; subst.
    apply IH; [unfold fmax; apply Rmax_left; lra | exact Hl].
Qed.

Lemma scale_zeros (values : list R) :
  Forall (fun x => x = 0) values -> Chart.scale values = 1.
Proof.
  intros Hz. unfold Chart.scale, Chart.max_val.
  rewrite (fold_fmax_zeros values 0 eq_refl Hz).
  rewrite gtb_false by lra. reflexivity.
Qed.

(** C5 (as amended): for every index [i] drawn (below the lengths of both
    [labels] and [values], [labels] non-empty), the chart emits the bar
    markup of the layout, and the bar height is [(values[i] * scale) as i32],
    truncated toward zero, with [scale = chart_height / max_value] when
    [max_value > 0] and [1] otherwise; for an all-zero series every height
    is [0]. *)
Theorem bar_heights_truncated (title : string) (labels : list string)
    (values : list R) (colors : list string) (bars : list Chart.Bar) :
  Chart.layout labels values colors = Some bars ->
  Chart.create_bar_chart title labels values colors =
    Some (Chart.header title ++ String.concat "" (map Chart.render_bar bars) ++ "</svg>") /\
  forall i v b, nth_error values i = Some v -> nth_error bars i = Some b ->
    Chart.bar_h b = as_i32 (v * Chart.scale values) /\
    (Forall (fun x => x = 0) values -> Chart.bar_h b = 0%Z).
Proof.
  intros Hl. split.
  - unfold Chart.create_bar_chart. rewrite Hl. reflexivity.
  - intros i v b Hv Hb.
    pose proof (bar_height_nth labels values colors bars Hl i v b Hv Hb) as Hh.
    split; [exact Hh|].
    intros Hz. rewrite Hh, (scale_zeros values Hz).
    assert (Hv0 : v = 0).
    { rewrite Forall_forall in Hz. apply Hz. eapply nth_error_In. exact Hv. }
    rewrite Hv0. apply as_i32_small; [lra | simpl; lra | unfold i32_max; lia].
Qed.

Lemma bar_heights_truncated_witness :
  Chart.layout ["a"; "b"] [0; 0] [] = Some chart_bars_zero /\
  Chart.create_bar_chart "t" ["a"; "b"] [0; 0] [] =
    Some (Chart.header "t" ++ String.concat "" (map Chart.render_bar chart_bars_zero)
          ++ "</svg>") /\
  forall i v b, nth_error [0; 0] i = Some v -> nth_error chart_bars_zero i = Some b ->
    Chart.bar_h b = as_i32 (v * Chart.scale [0; 0]) /\
    (Forall (fun x => x = 0) [0; 0] -> Chart.bar_h b = 0%Z).
Proof.
  assert (Hl : Chart.layout ["a"; "b"] [0; 0] [] = Some chart_bars_zero)
    by reflexivity.
  split; [exact Hl|].
  exact (bar_heights_truncated "t" ["a"; "b"] [0; 0] [] chart_bars_zero Hl).
Defined.

Lemma scale_440_1 : Chart.scale [440; 1] = / 2.
Proof.
  unfold Chart.scale, Chart.max_val. simpl. unfold fmax.
  rewrite (Rmax_right 0 440) by lra. rewrite (Rmax_left 440 1) by lra.
  rewrite gtb_true by lra.
  unfold Chart.chart_height, Chart.height, Chart.padding. simpl. field.
Qed.

(** C5 fails for the values [440; 1]: the scale is [0.5], the second bar is
    [0.5] pixel high and [as i32] truncates it to [0], where rounding gives [1]. *)
Lemma bar_heights_rounded_counterexample :
  ~ bar_heights_rounded ["a"; "b"] [440; 1] [].
Proof.
  intros Hc.
  set (bars := Chart.layout_bars 0 150 (Chart.scale [440; 1]) []
                 (combine ["a"; "b"] [440; 1])).
  assert (Hl : Chart.layout ["a"; "b"] [440; 1] [] = Some bars) by reflexivity.
  assert (Hb : exists b, nth_error bars 1 = Some b) by (eexists; reflexivity).
  destruct Hb as [b Hb].
  pose proof (Hc bars Hl 1%nat 1 b eq_refl Hb) as Hround.
  pose proof (bar_height_nth _ _ _ bars Hl 1%nat 1 b eq_refl Hb) as Htrunc.
  rewrite scale_440_1 in Hround, Htrunc.
  rewrite (as_i32_small _ 0) in Htrunc; [| lra | simpl; lra | unfold i32_max; lia].
  rewrite (round_z_nonneg _ 1) in Hround; [| lra | simpl; lra].
  rewrite Htrunc in Hround. discriminate.
Qed.

(* ================================================================== *)
(** * Credit: the worked example *)

Lemma Q2R_qpow (q : Q) (n : nat) : Q2R (qpow q n) = Q2R q ^ n.
Proof.
  induction n as [|n IH]; simpl.
  - unfold Q2R; simpl; field.
  - rewrite Q2R_mult, IH. reflexivity.
Qed.

Lemma Q2R_inject_Z (z : Z) : Q2R (inject_Z z) = IZR z.
Proof. unfold Q2R, inject_Z; simpl; field. Qed.

Ltac qcheck := vm_compute; first [reflexivity | intros Hq; discriminate Hq].

Lemma round2_Q (q : Q) (z : Z) :
  (0 <= q * (100 # 1))%Q ->
  (inject_Z z - (1 # 2) <= q * (100 # 1))%Q ->
  (q * (100 # 1) < inject_Z z + (1 # 2))%Q ->
  round2 (Q2R q) = IZR z / 100.
Proof.
  intros H0 Hlo Hhi. unfold round2, round.
  assert (E : Q2R q * 100 = Q2R (q * (100 # 1))).
  { rewrite Q2R_mult. f_equal. unfold Q2R; simpl; field. }
  assert (Eh : Q2R (1 # 2) = / 2) by (unfold Q2R; simpl; field).
  apply Qle_Rle in H0, Hlo. apply Qlt_Rlt in Hhi.
  rewrite Q2R_minus, Q2R_inject_Z, Eh in Hlo.
  rewrite Q2R_plus, Q2R_inject_Z, Eh in Hhi.
  assert (Ez : Q2R 0 = 0) by (unfold Q2R; simpl; field).
  rewrite Ez in H0.
  rewrite E, (round_z_nonneg _ z); [reflexivity | exact H0 | split; lra].
Qed.

Lemma example_pmt_eq :
  100000 * (5 / 100 / 12 * powf (1 + 5 / 100 / 12) (30 * 12))
    / (powf (1 + 5 / 100 / 12) (30 * 12) - 1) = Q2R example_pmtQ.
Proof.
  assert (Hp : powf (1 + 5 / 100 / 12) (30 * 12) = Q2R annuity_factorQ).
  { unfold powf.
    replace (30 * 12) with (INR 360) by (rewrite INR_IZR_INZ; simpl; lra).
    rewrite Rpower_pow by lra.
    unfold annuity_factorQ. rewrite Q2R_qpow. f_equal.
    unfold Q2R; simpl; field. }
  assert (Hgt : (1 # 1 < annuity_factorQ)%Q) by qcheck.
  apply Qlt_Rlt in Hgt.
  rewrite Hp. unfold example_pmtQ.
  rewrite Q2R_div by qcheck.
  rewrite !Q2R_mult, Q2R_minus.
  set (a := Q2R annuity_factorQ) in *.
  unfold Q2R in Hgt |- *; simpl in Hgt |- *.
  field. lra.
Qed.

(** C2: for [amount = 100000], [rate = 5], [term = 30] the annuity branch
    gives a monthly payment of [536.82], a total of [193255.78] and an
    overpayment of [93255.78] (each rounded to two decimals). *)
Theorem credit_example :
  exists resp, Credit.calculate_credit credit_req_example = Some resp /\
    Credit.monthly_payment resp = 536.82 /\
    Credit.total_payment resp = 193255.78 /\
    Credit.overpayment resp = 93255.78.
Proof.
  unfold Credit.calculate_credit, credit_req_example. cbv zeta. cbn [Credit.amount Credit.rate Credit.term Credit.currency].
  rewrite (gtb_true (5 / 100 / 12) 0) by lra.
  rewrite (gtb_true (30 * 12) 0) by lra. cbn [andb].
  chart_some. eexists; split; [reflexivity|]. cbn [Credit.monthly_payment Credit.total_payment Credit.overpayment].
  rewrite example_pmt_eq.
  assert (Et : Q2R example_pmtQ * (30 * 12) = Q2R (example_pmtQ * (360 # 1))).
  { rewrite Q2R_mult. f_equal. unfold Q2R; simpl; field. }
  assert (Eo : Q2R example_pmtQ * (30 * 12) - 100000
               = Q2R (example_pmtQ * (360 # 1) - (100000 # 1))).
  { rewrite Q2R_minus, <- Et. f_equal. unfold Q2R; simpl; field. }
  rewrite Eo, Et.
  rewrite (round2_Q _ 53682) by qcheck.
  rewrite (round2_Q _ 19325578) by qcheck.
  rewrite (round2_Q _ 9325578) by qcheck.
  repeat split; unfold Q2R; simpl; field.
Qed.


(* ================================================================== *)
(** * Further facts: monotonicity of the rounding, bounds *)

Module MoreFacts.

Lemma floor_z_bounds (x : R) : IZR (floor_z x) <= x < IZR (floor_z x) + 1.
Proof.
  unfold floor_z, Int_part. rewrite minus_IZR.
  destruct (archimed x) as [H1 H2]. lra.
Qed.

Lemma floor_z_mono (x y : R) : x <= y -> (floor_z x <= floor_z y)%Z.
Proof.
  intros Hxy. destruct (floor_z_bounds x) as [Hx _].
  destruct (floor_z_bounds y) as [_ Hy].
  assert (H : (floor_z x < floor_z y + 1)%Z).
  { apply lt_IZR. rewrite plus_IZR. lra. }
  lia.
Qed.

Lemma floor_z_nonneg (x : R) : 0 <= x -> (0 <= floor_z x)%Z.
Proof.
  intros H. rewrite <- (floor_z_IZR 0). apply floor_z_mono. exact H.
Qed.

Lemma round_z_mono (x y : R) : x <= y -> (round_z x <= round_z y)%Z.
Proof.
  intros Hxy. unfold round_z.
  destruct (Rle_dec 0 x) as [Hx|Hx]; destruct (Rle_dec 0 y) as [Hy|Hy].
  - apply floor_z_mono. lra.
  - lra.
  - pose proof (floor_z_nonneg (- x + / 2)) as H1.
    pose proof (floor_z_nonneg (y + / 2)) as H2.
    assert (0 <= - x + / 2) by lra. assert (0 <= y + / 2) by lra.
    specialize (H1 ltac:(assumption)). specialize (H2 ltac:(assumption)). lia.
  - assert (H : (floor_z (- y + / 2) <= floor_z (- x + / 2))%Z)
      by (apply floor_z_mono; lra).
    lia.
Qed.

Lemma round2_mono (x y : R) : x <= y -> round2 x <= round2 y.
Proof.
  intros H. unfold round2, round.
  apply Rmult_le_compat_r; [lra|].
  apply IZR_le, round_z_mono. lra.
Qed.

Lemma round1_mono (x y : R) : x <= y -> round1 x <= round1 y.
Proof.
  intros H. unfold round1, round.
  apply Rmult_le_compat_r; [lra|].
  apply IZR_le, round_z_mono. lra.
Qed.

Lemma round2_nonneg (x : R) : 0 <= x -> 0 <= round2 x.
Proof. intros H. rewrite <- round2_0. apply round2_mono. exact H. Qed.

Lemma round1_nonneg (x : R) : 0 <= x -> 0 <= round1 x.
Proof.
  intros H. rewrite <- (round1_IZR 0). apply round1_mono. exact H.
Qed.

Lemma trunc_z_nonneg_bounds (x : R) (z : Z) :
  0 <= x <= IZR z -> (0 <= trunc_z x <= z)%Z.
Proof.
  intros [H0 H1]. unfold trunc_z.
  destruct (Rle_dec 0 x) as [_|Hn]; [|lra].
  split; [apply floor_z_nonneg; exact H0|].
  rewrite <- (floor_z_IZR z). apply floor_z_mono. exact H1.
Qed.

Lemma as_i32_nonneg_bounds (x : R) (z : Z) :
  0 <= x <= IZR z -> (z <= i32_max)%Z -> (0 <= as_i32 x <= z)%Z.
Proof.
  intros Hx Hz. pose proof (trunc_z_nonneg_bounds x z Hx).
  unfold as_i32, i32_min. lia.
Qed.

Lemma as_i32_nonneg (x : R) : 0 <= x -> (0 <= as_i32 x)%Z.
Proof.
  intros H. unfold as_i32, trunc_z, i32_min.
  destruct (Rle_dec 0 x) as [_|Hn]; [|lra].
  pose proof (floor_z_nonneg x H). unfold i32_max. lia.
Qed.

(** Bernoulli's inequality. *)
Lemma bernoulli (r : R) (n : nat) : 0 <= r -> 1 + INR n * r <= (1 + r) ^ n.
Proof.
  intros Hr. induction n as [|n IH].
  - simpl. lra.
  - rewrite S_INR. change ((1 + r) ^ S n) with ((1 + r) * (1 + r) ^ n).
    assert (H1 : 1 <= (1 + r) ^ n) by (apply pow_R1_Rle; lra).
    nra.
Qed.

End MoreFacts.

Import MoreFacts.

(* ------------------------------------------------------------------ *)
(** ** Further properties of the chart layout *)

Module ChartFacts.

Lemma wrap32_id (z : Z) : (i32_min <= z <= i32_max)%Z -> wrap32 z = z.
Proof.
  unfold wrap32, i32_min, i32_max. intros H.
  rewrite Z.mod_small by lia. lia.
Qed.

Lemma layout_bars_length (k : nat) (bw : Z) (sc : R) (colors : list string)
    (lv : list (string * R)) :
  length (Chart.layout_bars k bw sc colors lv) = length lv.
Proof.
  revert k. induction lv as [|[lab v] lv IH]; intros k; simpl; [reflexivity|].
  rewrite IH. reflexivity.
Qed.

(** Everything one iteration of the loop computes for the [i]-th pair. *)
Lemma layout_bars_nth_fields (k : nat) (bw : Z) (sc : R) (colors : list string)
    (lv : list (string * R)) (i : nat) (b : Chart.Bar) :
  nth_error (Chart.layout_bars k bw sc colors lv) i = Some b ->
  nth_error lv i = Some (Chart.bar_label b, Chart.bar_value b) /\
  Chart.bar_x b = wrap32 (Chart.padding
                    + wrap32 (Z.of_nat (k + i) * wrap32 (bw + 10)) + 5) /\
  Chart.bar_w b = bw /\
  Chart.bar_h b = as_i32 (Chart.bar_value b * sc) /\
  Chart.bar_y b = wrap32 (Chart.height - Chart.padding - Chart.bar_h b) /\
  Chart.bar_color b = match nth_error colors (k + i) with
                      | Some c => c
                      | None => Chart.default_color
                      end.
Proof.
  revert k i. induction lv as [|[lab v] lv IH]; intros k i Hb.
  - destruct i; discriminate.
  - destruct i as [|i]; simpl in Hb.
    + injection Hb as <-. simpl. rewrite Nat.add_0_r.
      repeat split; reflexivity.
    + destruct (IH (S k) i Hb) as (H1 & H2 & H3 & H4 & H5 & H6).
      replace (S k + i)%nat with (k + S i)%nat in * by lia.
      repeat split; assumption.
Qed.

Lemma nth_error_combine_inv {A B : Type} (l1 : list A) (l2 : list B)
    (i : nat) (a : A) (v : B) :
  nth_error (combine l1 l2) i = Some (a, v) ->
  nth_error l1 i = Some a /\ nth_error l2 i = Some v.
Proof.
  revert l2 i. induction l1 as [|x l1 IH]; intros l2 i H.
  - destruct i; discriminate.
  - destruct l2 as [|y l2]; [destruct i; discriminate|].
    destruct i as [|i]; simpl in H.
    + injection H as -> ->. split; reflexivity.
    + exact (IH l2 i H).
Qed.

Lemma fold_fmax_acc (l : list R) (acc : R) : acc <= fold_left fmax l acc.
Proof.
  revert acc. induction l as [|x l IH]; intros acc; simpl; [lra|].
  eapply Rle_trans; [|apply IH]. unfold fmax. apply Rmax_l.
Qed.

Lemma fold_fmax_elem (l : list R) (acc v : R) :
  In v l -> v <= fold_left fmax l acc.
Proof.
  revert acc. induction l as [|x l IH]; intros acc Hin; [destruct Hin|].
  destruct Hin as [<-|Hin]; simpl.
  - eapply Rle_trans; [|apply fold_fmax_acc]. unfold fmax. apply Rmax_r.
  - apply IH. exact Hin.
Qed.

(** A non-negative value times the scale stays within the chart height. *)
Lemma scaled_value_bounds (values : list R) (v : R) :
  Forall (fun x => 0 <= x) values -> In v values ->
  0 <= v * Chart.scale values <= IZR Chart.chart_height.
Proof.
  intros Hall Hin.
  assert (Hv : 0 <= v) by (rewrite Forall_forall in Hall; apply Hall; exact Hin).
  pose proof (fold_fmax_elem values 0 v Hin) as Hle.
  pose proof (fold_fmax_acc values 0) as H0.
  unfold Chart.scale, Chart.max_val in *.
  unfold Chart.chart_height, Chart.height, Chart.padding in *.
  set (m := fold_left fmax values 0) in *.
  destruct (Rlt_dec 0 m) as [Hm|Hm].
  - rewrite gtb_true by exact Hm.
    replace (IZR (300 - 40 * 2)) with 220 by (simpl; lra).
    split.
    + apply Rmult_le_pos; [exact Hv|]. unfold Rdiv.
      apply Rmult_le_pos; [lra|]. left. apply Rinv_0_lt_compat. exact Hm.
    + replace (v * (220 / m)) with (220 * (v / m)) by (field; lra).
      assert (v / m <= 1).
      { unfold Rdiv. apply (Rmult_le_reg_r m); [exact Hm|].
        rewrite Rmult_assoc, Rinv_l by lra. lra. }
      assert (0 <= v / m).
      { unfold Rdiv. apply Rmult_le_pos; [exact Hv|]. left.
        apply Rinv_0_lt_compat. exact Hm. }
      nra.
  - rewrite gtb_false by lra.
    assert (v = 0) by lra. subst v.
    replace (IZR (300 - 40 * 2)) with 220 by (simpl; lra). lra.
Qed.

End ChartFacts.

Import ChartFacts.


Lemma layout_some_width (labels : list string) (values : list R)
    (colors : list string) (bars : list Chart.Bar) :
  Chart.layout labels values colors = Some bars ->
  (Z.of_nat (length labels) <> 0)%Z /\
  bars = Chart.layout_bars 0
           (wrap32 (Z.quot Chart.chart_width (Z.of_nat (length labels)) - 10))
           (Chart.scale values) colors (combine labels values).
Proof.
  unfold Chart.layout, Chart.bar_width.
  destruct (Z.of_nat (length labels) =? 0)%Z eqn:E; [discriminate|].
  intros H. injection H as <-. split; [lia|reflexivity].
Qed.

Lemma layout_count (labels : list string) (values : list R)
    (colors : list string) (bars : list Chart.Bar) :
  Chart.layout labels values colors = Some bars ->
  length bars = Nat.min (length labels) (length values).
Proof.
  intros H. destruct (layout_some_width _ _ _ _ H) as [_ ->].
  rewrite layout_bars_length, length_combine. reflexivity.
Qed.

(** The chart draws one bar per pair of [labels] and [values] the zip
    yields: as many as the shorter of the two lists. *)
Theorem chart_bar_count (labels : list string) (values : list R)
    (colors : list string) (bars : list Chart.Bar) :
  Chart.layout labels values colors = Some bars ->
  length bars = Nat.min (length labels) (length values).
Proof.
  exact (layout_count labels values colors bars).
Qed.

(** The [i]-th bar carries the [i]-th label and value, and is filled with
    [colors[i]], or with the default colour [#3498db] when [colors] has no
    [i]-th entry. *)
Theorem chart_bar_label_value_color (labels : list string) (values : list R)
    (colors : list string) (bars : list Chart.Bar) (i : nat) (b : Chart.Bar) :
  Chart.layout labels values colors = Some bars ->
  nth_error bars i = Some b ->
  nth_error labels i = Some (Chart.bar_label b) /\
  nth_error values i = Some (Chart.bar_value b) /\
  Chart.bar_color b = match nth_error colors i with
                      | Some c => c
                      | None => "#3498db"
                      end.
Proof.
  intros H Hb. destruct (layout_some_width _ _ _ _ H) as [_ ->].
  destruct (layout_bars_nth_fields _ _ _ _ _ _ _ Hb) as (Hlv & _ & _ & _ & _ & Hc).
  destruct (nth_error_combine_inv _ _ _ _ _ Hlv) as [Hl Hv].
  split; [exact Hl|]. split; [exact Hv|]. exact Hc.
Qed.

(** With non-negative values, every bar has a height between 0 and the
    chart height 220 and stands on the baseline [y + h = 260]: it stays
    inside the vertical drawing area [40, 260]. *)
Theorem chart_bars_vertical (labels : list string) (values : list R)
    (colors : list string) (bars : list Chart.Bar) (b : Chart.Bar) :
  Chart.layout labels values colors = Some bars ->
  Forall (fun v => 0 <= v) values ->
  In b bars ->
  (0 <= Chart.bar_h b <= 220)%Z /\ (Chart.bar_y b + Chart.bar_h b = 260)%Z.
Proof.
  intros H Hall Hin. destruct (layout_some_width _ _ _ _ H) as [_ Hbars].
  destruct (In_nth_error _ _ Hin) as [i Hb]. rewrite Hbars in Hb.
  destruct (layout_bars_nth_fields _ _ _ _ _ _ _ Hb) as (Hlv & _ & _ & Hh & Hy & _).
  destruct (nth_error_combine_inv _ _ _ _ _ Hlv) as [_ Hv].
  pose proof (scaled_value_bounds values (Chart.bar_value b) Hall
                (nth_error_In _ _ Hv)) as Hs.
  unfold Chart.chart_height, Chart.height, Chart.padding in Hs.
  replace (IZR (300 - 40 * 2)) with (IZR 220) in Hs by (f_equal; lia).
  pose proof (as_i32_nonneg_bounds _ 220 Hs ltac:(unfold i32_max; lia)) as Hb2.
  rewrite <- Hh in Hb2. split; [exact Hb2|].
  rewrite Hy, wrap32_id; unfold Chart.height, Chart.padding, i32_min, i32_max; lia.
Qed.

(** With 1 to 32 labels, bar [i] starts at [x = 45 + i * (320 / n)] and is
    [320 / n - 10] wide (non-negative), [n] being the number of labels: the
    bars are left to right, 10 apart, and stay inside [40, 360]. *)
Theorem chart_bars_horizontal (labels : list string) (values : list R)
    (colors : list string) (bars : list Chart.Bar) (i : nat) (b : Chart.Bar) :
  Chart.layout labels values colors = Some bars ->
  (length labels <= 32)%nat ->
  nth_error bars i = Some b ->
  let n := Z.of_nat (length labels) in
  Chart.bar_w b = (320 / n - 10)%Z /\ (0 <= Chart.bar_w b)%Z /\
  Chart.bar_x b = (45 + Z.of_nat i * (320 / n))%Z /\
  (40 <= Chart.bar_x b)%Z /\ (Chart.bar_x b + Chart.bar_w b <= 360)%Z.
Proof.
  intros H H32 Hb n.
  assert (Hlt : (i < length bars)%nat)
    by (apply nth_error_Some; rewrite Hb; discriminate).
  rewrite (layout_count _ _ _ _ H) in Hlt.
  destruct (layout_some_width _ _ _ _ H) as [Hn0 Hbars].
  rewrite Hbars in Hb.
  destruct (layout_bars_nth_fields _ _ _ _ _ _ _ Hb) as (_ & Hx & Hw & _).
  simpl Nat.add in Hx. fold n in Hx, Hw, Hn0.
  assert (Hin : (i < length labels)%nat) by lia.
  assert (Hn : (1 <= n <= 32)%Z) by (unfold n; lia).
  assert (Hi : (Z.of_nat i + 1 <= n)%Z) by (unfold n; lia).
  unfold Chart.chart_width, Chart.width, Chart.padding in Hx, Hw.
  replace (400 - 40 * 2)%Z with 320%Z in Hx, Hw by reflexivity.
  rewrite Z.quot_div_nonneg in Hx, Hw by lia.
  set (q := (320 / n)%Z) in *.
  assert (Hq : (n * q <= 320)%Z) by (apply Z.mul_div_le; lia).
  assert (Hq10 : (10 <= q)%Z).
  { unfold q. change 10%Z with (320 / 32)%Z. apply Z.div_le_compat_l; lia. }
  assert (Hiq : (Z.of_nat i * q + q <= 320)%Z) by nia.
  assert (Hiq0 : (0 <= Z.of_nat i * q)%Z) by nia.
  rewrite (wrap32_id (q - 10)) in Hw, Hx by (unfold i32_min, i32_max; lia).
  replace (q - 10 + 10)%Z with q in Hx by lia.
  rewrite (wrap32_id q), (wrap32_id (Z.of_nat i * q)), wrap32_id in Hx
    by (unfold i32_min, i32_max; lia).
  rewrite Hw, Hx. lia.
Qed.

(* ------------------------------------------------------------------ *)
(** ** Facts used by the calculator properties *)

Module CalcFacts.

Lemma chart_cons_some (t a : string) (l : list string) (vs : list R)
    (cs : list string) :
  Chart.create_bar_chart t (a :: l) vs cs <> None.
Proof.
  unfold Chart.create_bar_chart, Chart.layout, Chart.bar_width.
  destruct (Z.of_nat (length (a :: l)) =? 0)%Z eqn:E.
  - apply Z.eqb_eq in E. simpl in E. lia.
  - discriminate.
Qed.

Lemma powi_to_nat (x : R) (n : Z) : (0 <= n)%Z -> powi x n = x ^ Z.to_nat n.
Proof.
  intros Hn. unfold powi. rewrite pow_powerRZ, Z2Nat.id by exact Hn.
  reflexivity.
Qed.

Lemma IZR_to_nat (n : Z) : (0 <= n)%Z -> IZR n = INR (Z.to_nat n).
Proof. intros Hn. rewrite INR_IZR_INZ, Z2Nat.id by exact Hn. reflexivity. Qed.

(** Compounding at a positive rate never yields less than the plain sum
    of the amounts put in. *)
Lemma compound_ge_linear (a m r : R) (k : nat) :
  0 < r -> 0 <= a -> 0 <= m ->
  a + m * INR k <= a * (1 + r) ^ k + m * (((1 + r) ^ k - 1) / r).
Proof.
  intros Hr Ha Hm.
  pose proof (bernoulli r k (Rlt_le _ _ Hr)) as Hb.
  assert (H1 : 1 <= (1 + r) ^ k) by (apply pow_R1_Rle; lra).
  assert (H2 : INR k <= ((1 + r) ^ k - 1) / r).
  { apply (Rmult_le_reg_r r); [exact Hr|]. unfold Rdiv.
    rewrite Rmult_assoc, Rinv_l by lra. lra. }
  assert (a * 1 <= a * (1 + r) ^ k) by (apply Rmult_le_compat_l; lra).
  assert (m * INR k <= m * (((1 + r) ^ k - 1) / r))
    by (apply Rmult_le_compat_l; lra).
  lra.
Qed.

(** The annuity payment times the number of payments covers the amount. *)
Lemma annuity_total_ge (a r n : R) :
  0 < r -> 0 < n -> 0 <= a ->
  a <= a * (r * powf (1 + r) n) / (powf (1 + r) n - 1) * n.
Proof.
  intros Hr Hn Ha. unfold powf, Rpower.
  set (L := ln (1 + r)).
  assert (HL0 : 0 < L) by (unfold L; rewrite <- ln_1; apply ln_increasing; lra).
  assert (HLr : L <= r).
  { pose proof (exp_ineq1_le L) as H. unfold L in H at 2.
    rewrite exp_ln in H by lra. lra. }
  set (y := n * L).
  assert (Hy : 0 < y) by (unfold y; nra).
  set (x := exp y).
  assert (Hx : 1 < x) by (unfold x; rewrite <- exp_0; apply exp_increasing; exact Hy).
  assert (Hinv : 1 - y <= / x).
  { unfold x. rewrite <- exp_Ropp. pose proof (exp_ineq1_le (- y)). lra. }
  assert (Hxy : x - 1 <= x * y).
  { assert (x * (1 - y) <= x * / x) by (apply Rmult_le_compat_l; lra).
    rewrite Rinv_r in H by lra. lra. }
  assert (Hk : x - 1 <= r * x * n) by (unfold y in Hxy; nra).
  assert (Hq : 1 <= r * x * n / (x - 1)).
  { apply (Rmult_le_reg_r (x - 1)); [lra|]. unfold Rdiv.
    rewrite Rmult_assoc, Rinv_l by lra. lra. }
  replace (a * (r * x) / (x - 1) * n) with (a * (r * x * n / (x - 1)))
    by (field; lra).
  rewrite <- (Rmult_1_r a) at 1. apply Rmult_le_compat_l; lra.
Qed.

Lemma roi_nonneg (g t : R) :
  0 <= g -> 0 <= round1 (if gtb t 0 then g / t * 100 else 0).
Proof.
  intros Hg. unfold gtb. destruct (Rlt_dec 0 t) as [Ht|Ht].
  - apply round1_nonneg. unfold Rdiv. apply Rmult_le_pos; [|lra].
    apply Rmult_le_pos; [exact Hg|]. left. apply Rinv_0_lt_compat. exact Ht.
  - rewrite (round1_IZR 0). lra.
Qed.

End CalcFacts.

Import CalcFacts.

(** Eliminates the chart match of a calculator: its label list is never
    empty. *)
Ltac chart_nonempty :=
  match goal with
  | |- context [Chart.create_bar_chart ?t (?a :: ?l) ?vs ?cs] =>
      let E := fresh "E" in
      destruct (Chart.create_bar_chart t (a :: l) vs cs) eqn:E;
      [ | exfalso; exact (chart_cons_some t a l vs cs E) ]
  end.

(* ================================================================== *)
(** * Hourly income *)

(** With non-negative taxes, work expenses and commute time, positive work
    hours and a positive income, the real hourly rate never exceeds the
    nominal one and the efficiency is at most 100 percent. *)
Theorem hourly_real_le_nominal (req : Hourly.HourlyIncomeRequest) :
  0 <= Hourly.taxes req -> 0 <= Hourly.work_expenses req ->
  0 <= Hourly.commute_time req -> 0 < Hourly.work_hours req ->
  0 < Hourly.monthly_income req ->
  exists resp, Hourly.calculate_hourly_income req = Some resp /\
    Hourly.real_hourly_income resp <= Hourly.nominal_hourly_income resp /\
    Hourly.efficiency resp <= 100.
Proof.
  intros Ht He Hc Hw HI. unfold Hourly.calculate_hourly_income. cbv zeta.
  set (I := Hourly.monthly_income req) in *.
  set (w := Hourly.work_hours req) in *.
  set (c := Hourly.commute_time req) in *.
  set (net := I * (1 - Hourly.taxes req / 100) - Hourly.work_expenses req).
  assert (Hnet : net <= I) by (unfold net; nra).
  assert (Hreal : net / (w + c) <= I / w).
  { apply Rle_trans with (I / (w + c)).
    - unfold Rdiv. apply Rmult_le_compat_r; [|exact Hnet].
      left. apply Rinv_0_lt_compat. lra.
    - unfold Rdiv. apply Rmult_le_compat_l; [lra|].
      apply Rinv_le_contravar; lra. }
  assert (Hnom : 0 < I / w) by (unfold Rdiv; apply Rmult_lt_0_compat;
                                 [lra | apply Rinv_0_lt_compat; lra]).
  assert (Heff : net / (w + c) / (I / w) * 100 <= 100).
  { assert (net / (w + c) / (I / w) <= 1).
    { apply (Rmult_le_reg_r (I / w)); [exact Hnom|]. unfold Rdiv at 1.
      rewrite Rmult_assoc, Rinv_l by lra. lra. }
    lra. }
  chart_nonempty. eexists; split; [reflexivity|].
  cbn [Hourly.real_hourly_income Hourly.nominal_hourly_income Hourly.efficiency].
  split; [apply round2_mono; exact Hreal|].
  apply Rle_trans with (round1 100); [apply round1_mono; exact Heff|].
  rewrite (round1_IZR 100). lra.
Qed.

(** With no taxes, no work expenses and no commute (and non-zero income and
    hours), the real rate equals the nominal one, the efficiency is exactly
    100 and the net income is the income. *)
Theorem hourly_no_costs (req : Hourly.HourlyIncomeRequest) :
  Hourly.taxes req = 0 -> Hourly.work_expenses req = 0 ->
  Hourly.commute_time req = 0 -> Hourly.work_hours req <> 0 ->
  Hourly.monthly_income req <> 0 ->
  exists resp, Hourly.calculate_hourly_income req = Some resp /\
    Hourly.real_hourly_income resp = Hourly.nominal_hourly_income resp /\
    Hourly.efficiency resp = 100 /\
    Hourly.net_income resp = round2 (Hourly.monthly_income req).
Proof.
  intros Ht He Hc Hw HI. unfold Hourly.calculate_hourly_income. cbv zeta.
  rewrite Ht, He, Hc.
  set (I := Hourly.monthly_income req) in *.
  set (w := Hourly.work_hours req) in *.
  replace (I * (1 - 0 / 100) - 0) with I by field.
  replace (w + 0) with w by ring.
  chart_nonempty. eexists; split; [reflexivity|].
  cbn [Hourly.real_hourly_income Hourly.nominal_hourly_income Hourly.efficiency
       Hourly.net_income].
  replace (I / w / (I / w) * 100) with (IZR 100) by (field; split; assumption).
  rewrite round1_IZR. repeat split; reflexivity.
Qed.

(* ================================================================== *)
(** * Time value *)


(* ================================================================== *)
(** * Investment: gain and return on investment *)

(** With a non-positive annual return the investment never reports a gain
    or a loss: the gain and the ROI are 0 and the future value is the total
    contributed. *)
Theorem investment_flat_no_gain (req : Investment.InvestmentRequest) :
  Investment.annual_return req <= 0 ->
  exists resp, Investment.calculate_investment req = Some resp /\
    Investment.total_gain resp = 0 /\ Investment.roi resp = 0 /\
    Investment.future_value resp = Investment.total_contributions resp.
Proof.
  intros H. unfold Investment.calculate_investment. cbv zeta.
  rewrite (gtb_false (Investment.annual_return req / 100 / 12) 0) by lra.
  set (t := Investment.initial_amount req
            + Investment.monthly_contribution req
              * IZR (as_i32 (Investment.period req * 12))).
  replace (t - t) with 0 by ring.
  chart_nonempty. eexists; split; [reflexivity|].
  cbn [Investment.total_gain Investment.roi Investment.future_value
       Investment.total_contributions].
  rewrite round2_0.
  replace (if gtb t 0 then 0 / t * 100 else 0) with 0
    by (destruct (gtb t 0); [unfold Rdiv; ring | reflexivity]).
  rewrite (round1_IZR 0). repeat split; reflexivity.
Qed.

(** With a positive annual return, non-negative amounts and a non-negative
    period, compounding never loses money: the future value is at least the
    total contributed, and the gain and the ROI are non-negative. *)
Theorem investment_growth_no_loss (req : Investment.InvestmentRequest) :
  0 < Investment.annual_return req -> 0 <= Investment.initial_amount req ->
  0 <= Investment.monthly_contribution req -> 0 <= Investment.period req ->
  exists resp, Investment.calculate_investment req = Some resp /\
    Investment.total_contributions resp <= Investment.future_value resp /\
    0 <= Investment.total_gain resp /\ 0 <= Investment.roi resp.
Proof.
  intros Hr HI HM Hp. unfold Investment.calculate_investment. cbv zeta.
  set (r := Investment.annual_return req / 100 / 12).
  assert (Hr0 : 0 < r) by (unfold r; lra).
  rewrite (gtb_true r 0 Hr0).
  set (n := as_i32 (Investment.period req * 12)).
  assert (Hn : (0 <= n)%Z) by (apply as_i32_nonneg; lra).
  rewrite (powi_to_nat (1 + r) n Hn), (IZR_to_nat n Hn).
  pose proof (compound_ge_linear (Investment.initial_amount req)
                (Investment.monthly_contribution req) r (Z.to_nat n) Hr0 HI HM) as Hg.
  chart_nonempty. eexists; split; [reflexivity|].
  cbn [Investment.total_gain Investment.roi Investment.future_value
       Investment.total_contributions].
  split; [apply round2_mono; exact Hg|].
  split; [apply round2_nonneg; lra|].
  apply roi_nonneg. lra.
Qed.

(* ================================================================== *)
(** * Credit: totals *)

(** With a non-positive rate and a positive term the credit is repaid in
    equal parts: the total paid is the amount, the overpayment is 0 and the
    monthly payment is [amount / (term * 12)]. *)
Theorem credit_no_interest (req : Credit.CreditRequest) :
  Credit.rate req <= 0 -> 0 < Credit.term req ->
  exists resp, Credit.calculate_credit req = Some resp /\
    Credit.total_payment resp = round2 (Credit.amount req) /\
    Credit.overpayment resp = 0 /\
    Credit.monthly_payment resp = round2 (Credit.amount req / (Credit.term req * 12)).
Proof.
  intros Hr Ht. unfold Credit.calculate_credit. cbv zeta.
  rewrite (gtb_false (Credit.rate req / 100 / 12) 0) by lra.
  rewrite (gtb_true (Credit.term req * 12) 0) by lra. cbn [andb].
  replace (Credit.amount req / (Credit.term req * 12) * (Credit.term req * 12))
    with (Credit.amount req) by (field; lra).
  replace (Credit.amount req - Credit.amount req) with 0 by ring.
  chart_nonempty. eexists; split; [reflexivity|].
  cbn [Credit.total_payment Credit.overpayment Credit.monthly_payment].
  rewrite round2_0. repeat split; reflexivity.
Qed.

(** With a positive rate and term and a non-negative amount the annuity
    pays back at least the amount: the total is at least the (rounded)
    amount and the overpayment is non-negative. *)
Theorem credit_overpayment_nonneg (req : Credit.CreditRequest) :
  0 < Credit.rate req -> 0 < Credit.term req -> 0 <= Credit.amount req ->
  exists resp, Credit.calculate_credit req = Some resp /\
    round2 (Credit.amount req) <= Credit.total_payment resp /\
    0 <= Credit.overpayment resp.
Proof.
  intros Hr Ht Ha. unfold Credit.calculate_credit. cbv zeta.
  set (r := Credit.rate req / 100 / 12).
  set (n := Credit.term req * 12).
  assert (Hr0 : 0 < r) by (unfold r; lra).
  assert (Hn0 : 0 < n) by (unfold n; lra).
  rewrite (gtb_true r 0 Hr0), (gtb_true n 0 Hn0). cbn [andb].
  pose proof (annuity_total_ge (Credit.amount req) r n Hr0 Hn0 Ha) as Hg.
  chart_nonempty. eexists; split; [reflexivity|].
  cbn [Credit.total_payment Credit.overpayment].
  split; [apply round2_mono; exact Hg|].
  apply round2_nonneg. lra.
Qed.

(* ================================================================== *)
(** * Retirement *)

(** The required capital is [desired_income * 12 / 0.04 = desired_income *
    300]; the gap is never negative, and it is 0 when the projected savings
    cover the required capital. *)
Theorem retirement_gap (req : Retirement.RetirementRequest) :
  exists resp, Retirement.calculate_retirement req = Some resp /\
    Retirement.future_value resp = round2 (Retirement.total_fv req) /\
    Retirement.required_capital resp = round2 (Retirement.desired_income req * 300) /\
    0 <= Retirement.gap resp /\
    (Retirement.desired_income req * 300 <= Retirement.total_fv req ->
     Retirement.gap resp = 0).
Proof.
  unfold Retirement.calculate_retirement. cbv zeta.
  replace (Retirement.desired_income req * 12 / 0.04)
    with (Retirement.desired_income req * 300)
    by (change 0.04 with (4 / 100); field).
  chart_nonempty. eexists; split; [reflexivity|].
  cbn [Retirement.future_value Retirement.required_capital Retirement.gap].
  split; [reflexivity|]. split; [reflexivity|]. unfold fmax. split.
  - apply round2_nonneg. apply Rmax_r.
  - intros H. rewrite Rmax_right by lra. exact round2_0.
Qed.

(** With a zero expected return the projected savings are the current
    savings plus the monthly savings times the (truncated) month count. *)
Theorem retirement_zero_return (req : Retirement.RetirementRequest) :
  Retirement.expected_return req = 0 ->
  Retirement.total_fv req =
    Retirement.current_savings req
    + Retirement.monthly_savings req
      * IZR (as_i32 ((Retirement.retirement_age req - Retirement.current_age req) * 12)).
Proof.
  intros H. unfold Retirement.total_fv. cbv zeta. rewrite H.
  rewrite (gtb_false (0 / 100 / 12) 0) by lra.
  replace (1 + 0 / 100 / 12) with 1 by field.
  unfold powi. rewrite powerRZ_R1. ring.
Qed.

(** With a positive expected return, non-negative savings and a retirement
    age not below the current age, the projected savings are at least the
    current savings plus the monthly savings over the month count. *)
Theorem retirement_growth_ge_deposits (req : Retirement.RetirementRequest) :
  0 < Retirement.expected_return req -> 0 <= Retirement.current_savings req ->
  0 <= Retirement.monthly_savings req ->
  Retirement.current_age req <= Retirement.retirement_age req ->
  Retirement.current_savings req
  + Retirement.monthly_savings req
    * IZR (as_i32 ((Retirement.retirement_age req - Retirement.current_age req) * 12))
  <= Retirement.total_fv req.
Proof.
  intros Hr Hc Hm Ha. unfold Retirement.total_fv. cbv zeta.
  set (r := Retirement.expected_return req / 100 / 12).
  assert (Hr0 : 0 < r) by (unfold r; lra).
  rewrite (gtb_true r 0 Hr0).
  set (n := as_i32 ((Retirement.retirement_age req - Retirement.current_age req) * 12)).
  assert (Hn : (0 <= n)%Z) by (apply as_i32_nonneg; lra).
  rewrite (powi_to_nat (1 + r) n Hn), (IZR_to_nat n Hn).
  apply compound_ge_linear; assumption.
Qed.

(* ================================================================== *)
(** * Emergency fund *)

(** The remaining amount is never negative, nor is the month count when
    there is a positive contribution; once the savings reach the target
    nothing remains, and with a positive contribution no month is left. *)
Theorem emergency_remaining (req : Emergency.EmergencyFundRequest) :
  exists resp, Emergency.calculate_emergency_fund req = Some resp /\
    0 <= Emergency.remaining_amount resp /\
    (0 < Emergency.monthly_contribution req -> 0 <= Emergency.months_to_target resp) /\
    (Emergency.monthly_expenses req * Emergency.months_coverage req
       <= Emergency.current_savings req ->
     Emergency.remaining_amount resp = 0 /\
     (0 < Emergency.monthly_contribution req -> Emergency.months_to_target resp = 0)).
Proof.
  unfold Emergency.calculate_emergency_fund. cbv zeta.
  set (c := Emergency.monthly_contribution req).
  set (rem := fmax (Emergency.monthly_expenses req * Emergency.months_coverage req
                    - Emergency.current_savings req) 0).
  assert (Hrem : 0 <= rem) by (unfold rem, fmax; apply Rmax_r).
  chart_nonempty. eexists; split; [reflexivity|].
  cbn [Emergency.remaining_amount Emergency.months_to_target].
  split; [apply round2_nonneg; exact Hrem|]. split.
  - intros Hc. rewrite (gtb_true c 0 Hc). apply round1_nonneg.
    unfold Rdiv. apply Rmult_le_pos; [exact Hrem|].
    left. apply Rinv_0_lt_compat. exact Hc.
  - intros Hs.
    assert (H0 : rem = 0) by (unfold rem, fmax; apply Rmax_right; lra).
    rewrite H0. split; [exact round2_0|].
    intros Hc. rewrite (gtb_true c 0 Hc).
    replace (0 / c) with (IZR 0) by (unfold Rdiv; ring).
    rewrite round1_IZR. reflexivity.
Qed.

(* ================================================================== *)
(** * Tax *)


(* ------------------------------------------------------------------ *)
(** ** The loops of [calculate_buy_rent] *)

Module BuyRentFacts.

Lemma buy_loop_sum (k : nat) (mp price acc : R) :
  BuyRent.buy_loop k mp price acc = acc + INR k * (mp + price * 0.01 / 12).
Proof.
  revert acc. induction k as [|k IH]; intros acc; simpl BuyRent.buy_loop.
  - simpl. ring.
  - rewrite IH, S_INR. ring.
Qed.

Lemma rent_loop_app (a b : nat) (g : R) (m : Z) (t c : R) :
  BuyRent.rent_loop (a + b) g m t c =
  let '(t', c') := BuyRent.rent_loop a g m t c in
  BuyRent.rent_loop b g (m + Z.of_nat a) t' c'.
Proof.
  revert m t c. induction a as [|a IH]; intros m t c.
  - simpl. rewrite Z.add_0_r. reflexivity.
  - simpl (BuyRent.rent_loop (S a + b) g m t c).
    simpl (BuyRent.rent_loop (S a) g m t c).
    rewrite IH. destruct (BuyRent.rent_loop a g (m + 1) _ _) as [t' c'].
    f_equal. lia.
Qed.

Lemma rent_loop_plain (k : nat) (g : R) (m : Z) (t c : R) :
  (forall i, (i < k)%nat -> Z.rem (m + Z.of_nat i) 12 <> 0%Z) ->
  BuyRent.rent_loop k g m t c = (t + INR k * c, c).
Proof.
  revert m t. induction k as [|k IH]; intros m t Hm.
  - simpl. f_equal. ring.
  - simpl BuyRent.rent_loop.
    assert (H0 : Z.rem m 12 <> 0%Z).
    { specialize (Hm O ltac:(lia)). rewrite Z.add_0_r in Hm. exact Hm. }
    apply Z.eqb_neq in H0. rewrite H0.
    rewrite IH.
    + rewrite S_INR. f_equal. ring.
    + intros i Hi. specialize (Hm (S i) ltac:(lia)).
      rewrite Nat2Z.inj_succ in Hm. rewrite <- Z.add_assoc.
      replace (1 + Z.of_nat i)%Z with (Z.succ (Z.of_nat i)) by lia. exact Hm.
Qed.

(** A year of rent, from the first month of a year: twelve payments of the
    current rent, then the rent grows once. *)
Lemma rent_loop_year (g : R) (j : Z) (t c : R) :
  (0 <= j)%Z ->
  BuyRent.rent_loop 12 g (12 * j + 1) t c = (t + 12 * c, c * (1 + g / 100)).
Proof.
  intros Hj. change 12%nat with (11 + 1)%nat. rewrite rent_loop_app.
  rewrite rent_loop_plain.
  - cbn [BuyRent.rent_loop].
    assert (H : Z.rem (12 * j + 1 + Z.of_nat 11) 12 = 0%Z).
    { rewrite Z.rem_mod_nonneg by lia.
      replace (12 * j + 1 + Z.of_nat 11)%Z with ((j + 1) * 12)%Z by lia.
      apply Z.mod_mul. lia. }
    rewrite H. cbn [Z.eqb]. f_equal. simpl INR. ring.
  - intros i Hi. rewrite Z.rem_mod_nonneg by lia.
    replace (12 * j + 1 + Z.of_nat i)%Z with ((1 + Z.of_nat i) + j * 12)%Z by ring.
    rewrite Z.mod_add, Z.mod_small by lia. lia.
Qed.

Lemma geom_shift (q : R) (y : nat) : 1 + q * geom q y = geom q y + q ^ y.
Proof.
  induction y as [|y IH]; simpl geom.
  - simpl. ring.
  - replace (1 + q * (geom q y + q ^ y)) with (1 + q * geom q y + q * q ^ y) by ring.
    rewrite IH. simpl. ring.
Qed.

Lemma rent_loop_years (y : nat) (g : R) (j : Z) (t c : R) :
  (0 <= j)%Z ->
  BuyRent.rent_loop (12 * y) g (12 * j + 1) t c =
  (t + 12 * c * geom (1 + g / 100) y, c * (1 + g / 100) ^ y).
Proof.
  revert j t c. induction y as [|y IH]; intros j t c Hj.
  - simpl. f_equal; ring.
  - replace (12 * S y)%nat with (12 + 12 * y)%nat by lia.
    rewrite rent_loop_app, rent_loop_year by exact Hj.
    replace (12 * j + 1 + Z.of_nat 12)%Z with (12 * (j + 1) + 1)%Z by lia.
    rewrite IH by lia.
    pose proof (geom_shift (1 + g / 100) y) as Hs.
    simpl geom. simpl pow. f_equal.
    + replace (t + 12 * c + 12 * (c * (1 + g / 100)) * geom (1 + g / 100) y)
        with (t + 12 * c * (1 + (1 + g / 100) * geom (1 + g / 100) y)) by ring.
      rewrite Hs. ring.
    + ring.
Qed.

End BuyRentFacts.

Import BuyRentFacts.

(* ================================================================== *)
(** * Buy or rent *)

(** Rent paid over whole years, starting at the first month of a year:
    every year costs twelve times that year's rent, and the rent grows by
    [rent_growth] percent after each year. *)
Theorem rent_loop_yearly (y : nat) (g : R) (j : Z) (t c : R) :
  (0 <= j)%Z ->
  BuyRent.rent_loop (12 * y) g (12 * j + 1) t c =
  (t + 12 * c * geom (1 + g / 100) y, c * (1 + g / 100) ^ y).
Proof. exact (rent_loop_years y g j t c). Qed.

(** For a horizon between 0 and a million years, both loops run over
    [12 * h] months, [h] the horizon truncated to an integer: the buy side
    pays the down payment plus [12 * h] times the mortgage payment and the
    monthly upkeep of 1 percent a year, the rent side pays twelve months of
    each year's rent. *)
Theorem buy_rent_positions (req : BuyRent.BuyRentRequest) :
  0 <= BuyRent.horizon req <= 1000000 ->
  let h := as_i32 (BuyRent.horizon req) in
  let loan := fmax (BuyRent.property_price req - BuyRent.down_payment req) 0 in
  let mp := BuyRent.mortgage_payment loan (BuyRent.mortgage_rate req / 100 / 12)
              (as_i32 (BuyRent.mortgage_term req * 12)) in
  exists resp, BuyRent.calculate_buy_rent req = Some resp /\
    BuyRent.net_buy_position resp =
      round2 (BuyRent.property_price req
                * powf (1 + BuyRent.property_growth req / 100) (BuyRent.horizon req)
              - (BuyRent.down_payment req
                 + 12 * IZR h * (mp + BuyRent.property_price req * 0.01 / 12))) /\
    BuyRent.net_rent_position resp =
      round2 (BuyRent.down_payment req * powf 1.07 (BuyRent.horizon req)
              - 12 * BuyRent.monthly_rent req
                * geom (1 + BuyRent.rent_growth req / 100) (Z.to_nat h)).
Proof.
  intros H h loan mp.
  assert (Hh : (0 <= h <= 1000000)%Z)
    by (apply as_i32_nonneg_bounds; [exact H | unfold i32_max; lia]).
  assert (Hk : BuyRent.iterations (BuyRent.months_of (BuyRent.horizon req))
               = (12 * Z.to_nat h)%nat).
  { unfold BuyRent.iterations, BuyRent.months_of. fold h.
    rewrite wrap32_id by (unfold i32_min, i32_max; lia).
    rewrite Z2Nat.inj_mul by lia. rewrite Nat.mul_comm. reflexivity. }
  unfold BuyRent.calculate_buy_rent. cbv zeta. fold loan mp. rewrite Hk.
  rewrite buy_loop_sum.
  pose proof (rent_loop_years (Z.to_nat h) (BuyRent.rent_growth req) 0 0
                (BuyRent.monthly_rent req) (Z.le_refl 0)) as Hr.
  replace (12 * 0 + 1)%Z with 1%Z in Hr by reflexivity. rewrite Hr.
  cbn [fst].
  chart_nonempty. eexists; split; [reflexivity|].
  cbn [BuyRent.net_buy_position BuyRent.net_rent_position].
  rewrite mult_INR, (IZR_to_nat h) by lia.
  split; f_equal; simpl INR; ring.
Qed.

(* ------------------------------------------------------------------ *)
(** ** Every calculator returns a response *)

Module CalcTotal.

Ltac calc_some :=
  cbv zeta; try (match goal with
                 | |- context [leb ?x ?y] => destruct (leb x y); [eexists; reflexivity|]
                 end);
  chart_nonempty; eexists; reflexivity.

Lemma hourly_some (req : Hourly.HourlyIncomeRequest) :
  exists resp, Hourly.calculate_hourly_income req = Some resp.
Proof. unfold Hourly.calculate_hourly_income. calc_some. Qed.

Lemma time_value_some (req : TimeValue.TimeValueRequest) :
  exists resp, TimeValue.calculate_time_value req = Some resp.
Proof. unfold TimeValue.calculate_time_value, TimeValue.chart_labels. calc_some. Qed.

Lemma investment_some (req : Investment.InvestmentRequest) :
  exists resp, Investment.calculate_investment req = Some resp.
Proof. unfold Investment.calculate_investment. calc_some. Qed.

Lemma credit_some (req : Credit.CreditRequest) :
  exists resp, Credit.calculate_credit req = Some resp.
Proof. unfold Credit.calculate_credit. calc_some. Qed.

Lemma retirement_some (req : Retirement.RetirementRequest) :
  exists resp, Retirement.calculate_retirement req = Some resp.
Proof. unfold Retirement.calculate_retirement. calc_some. Qed.

Lemma debt_some (req : Debt.DebtPayoffRequest) :
  exists resp, Debt.calculate_debt_payoff req = Some resp.
Proof. unfold Debt.calculate_debt_payoff. calc_some. Qed.

Lemma emergency_some (req : Emergency.EmergencyFundRequest) :
  exists resp, Emergency.calculate_emergency_fund req = Some resp.
Proof. unfold Emergency.calculate_emergency_fund. calc_some. Qed.

Lemma tax_some (req : Tax.TaxRequest) :
  exists resp, Tax.calculate_tax req = Some resp.
Proof. unfold Tax.calculate_tax. calc_some. Qed.

Lemma buy_rent_some (req : BuyRent.BuyRentRequest) :
  exists resp, BuyRent.calculate_buy_rent req = Some resp.
Proof. unfold BuyRent.calculate_buy_rent. calc_some. Qed.

Lemma method_eqb_true (m1 m2 : Http.Method) :
  Http.method_eqb m1 m2 = true <-> m1 = m2.
Proof. destruct m1, m2; simpl; split; congruence. Qed.

End CalcTotal.

Import CalcTotal.

(* ================================================================== *)
(** * The request handler *)

Section HandlerFacts.

Variable plain_headers : list (string * string).

Context `{FromJson Hourly.HourlyIncomeRequest} `{ToJson Hourly.HourlyIncomeResponse}.
Context `{FromJson TimeValue.TimeValueRequest} `{ToJson TimeValue.TimeValueResponse}.
Context `{FromJson Investment.InvestmentRequest} `{ToJson Investment.InvestmentResponse}.
Context `{FromJson Credit.CreditRequest} `{ToJson Credit.CreditResponse}.
Context `{FromJson Retirement.RetirementRequest} `{ToJson Retirement.RetirementResponse}.
Context `{FromJson Debt.DebtPayoffRequest} `{ToJson Debt.DebtPayoffResponse}.
Context `{FromJson Emergency.EmergencyFundRequest} `{ToJson Emergency.EmergencyFundResponse}.
Context `{FromJson Tax.TaxRequest} `{ToJson Tax.TaxResponse}.
Context `{FromJson BuyRent.BuyRentRequest} `{ToJson BuyRent.BuyRentResponse}.


(** Any request that is not an OPTIONS request, not [GET /health] and not
    a POST to one of the nine calculator paths gets [404 Not Found]. *)
Theorem http_not_found (req : Http.Request) :
  Http.method req <> Http.Options ->
  ~ (Http.method req = Http.Get /\ Http.path req = "/health") ->
  ~ (Http.method req = Http.Post /\ In (Http.path req) Http.calculator_paths) ->
  Http.main plain_headers req =
    Some {| Http.status := 404; Http.headers := plain_headers;
            Http.resp_body := "Not Found" |}.
Proof.
  intros Ho Hh Hp. destruct req as [m p b]; cbn [Http.method Http.path] in *.
  unfold Http.main; cbn [Http.method Http.path Http.body].
  destruct (Http.method_eqb m Http.Options) eqn:E1;
    [apply method_eqb_true in E1; contradiction|].
  destruct (Http.method_eqb m Http.Get && String.eqb p "/health") eqn:E2.
  { apply andb_true_iff in E2. destruct E2 as [E2 E3].
    apply method_eqb_true in E2. apply String.eqb_eq in E3. tauto. }
  destruct (Http.method_eqb m Http.Post) eqn:E4; [|reflexivity].
  apply method_eqb_true in E4.
  unfold Http.route_post.
  repeat match goal with
         | |- context [String.eqb p ?s] =>
             let E := fresh "E" in
             destruct (String.eqb p s) eqn:E;
             [apply String.eqb_eq in E; exfalso; apply Hp; split;
              [exact E4 | rewrite E; simpl; tauto] |]
         end.
  reflexivity.
Qed.

(** A POST to a calculator path whose body does not decode as that
    calculator's request gets [400] with the message [Bad Request: ] followed
    by the decoding error. *)
Theorem http_bad_request (req : Http.Request) (e : string) :
  Http.method req = Http.Post ->
  Routing.decode_error (Http.path req) (Http.body req) = Some e ->
  Http.main plain_headers req =
    Some {| Http.status := 400; Http.headers := plain_headers;
            Http.resp_body := "Bad Request: " ++ e |}.
Proof.
  intros Hm He. unfold Http.main. rewrite Hm. cbn [Http.method_eqb andb].
  unfold Http.route_post. unfold Routing.decode_error in He.
  set (p := Http.path req) in *. set (b := Http.body req) in *.
  repeat match goal with
         | |- context [String.eqb p ?s] =>
             destruct (String.eqb p s)
         end;
    try discriminate;
    unfold Http.respond, Routing.decode_result in *;
    destruct from_json as [d|e']; try discriminate;
    injection He as <-; reflexivity.
Qed.

(** A POST to a calculator path whose body decodes is answered with a 200
    JSON response: the calculator never fails on a decoded request. *)
Theorem http_calculator_ok (req : Http.Request) :
  Http.method req = Http.Post ->
  In (Http.path req) Http.calculator_paths ->
  Routing.decode_error (Http.path req) (Http.body req) = None ->
  exists s, Http.main plain_headers req =
    Some {| Http.status := 200; Http.headers := Http.json_headers;
            Http.resp_body := s |}.
Proof.
  intros Hm Hin He. unfold Http.main. rewrite Hm. cbn [Http.method_eqb andb].
  unfold Http.route_post. unfold Routing.decode_error in He.
  set (p := Http.path req) in *. set (b := Http.body req) in *.
  repeat match goal with
         | |- context [String.eqb p ?s] =>
             let E := fresh "E" in
             destruct (String.eqb p s) eqn:E
         end.
  all: unfold Http.respond, Routing.decode_result in *.
  all: try (destruct from_json as [d|e']; [|discriminate]).
  - destruct (hourly_some d) as [r Hr]; rewrite Hr; eexists; reflexivity.
  - destruct (time_value_some d) as [r Hr]; rewrite Hr; eexists; reflexivity.
  - destruct (investment_some d) as [r Hr]; rewrite Hr; eexists; reflexivity.
  - destruct (credit_some d) as [r Hr]; rewrite Hr; eexists; reflexivity.
  - destruct (retirement_some d) as [r Hr]; rewrite Hr; eexists; reflexivity.
  - destruct (debt_some d) as [r Hr]; rewrite Hr; eexists; reflexivity.
  - destruct (emergency_some d) as [r Hr]; rewrite Hr; eexists; reflexivity.
  - destruct (tax_some d) as [r Hr]; rewrite Hr; eexists; reflexivity.
  - destruct (buy_rent_some d) as [r Hr]; rewrite Hr; eexists; reflexivity.
  - exfalso. unfold Http.calculator_paths in Hin. simpl in Hin.
    repeat (destruct Hin as [Hs|Hin];
            [rewrite <- Hs in *; rewrite String.eqb_refl in *; discriminate|]).
    exact Hin.
Qed.

End HandlerFacts.

(* ================================================================== *)
(** * Instances of the properties on sample inputs *)

Lemma chart_bar_count_witness :
  Chart.layout demo_labels demo_values demo_colors = Some demo_bars /\
  length demo_bars = Nat.min (length demo_labels) (length demo_values).
Proof.
  assert (H : Chart.layout demo_labels demo_values demo_colors = Some demo_bars)
    by reflexivity.
  split; [exact H|]. exact (chart_bar_count _ _ _ _ H).
Defined.

Lemma chart_bar_label_value_color_witness :
  nth_error demo_labels 1 = Some (Chart.bar_label demo_bar1) /\
  nth_error demo_values 1 = Some (Chart.bar_value demo_bar1) /\
  Chart.bar_color demo_bar1 = match nth_error demo_colors 1 with
                              | Some c => c
                              | None => "#3498db"
                              end.
Proof.
  apply (chart_bar_label_value_color demo_labels demo_values demo_colors demo_bars);
    reflexivity.
Defined.

Lemma chart_bars_vertical_witness :
  (0 <= Chart.bar_h demo_bar1 <= 220)%Z /\
  (Chart.bar_y demo_bar1 + Chart.bar_h demo_bar1 = 260)%Z.
Proof.
  apply (chart_bars_vertical demo_labels demo_values demo_colors demo_bars).
  - reflexivity.
  - unfold demo_values. repeat constructor; lra.
  - apply nth_error_In with 1%nat. reflexivity.
Defined.

Lemma chart_bars_horizontal_witness :
  let n := Z.of_nat (length demo_labels) in
  Chart.bar_w demo_bar1 = (320 / n - 10)%Z /\ (0 <= Chart.bar_w demo_bar1)%Z /\
  Chart.bar_x demo_bar1 = (45 + Z.of_nat 1 * (320 / n))%Z /\
  (40 <= Chart.bar_x demo_bar1)%Z /\
  (Chart.bar_x demo_bar1 + Chart.bar_w demo_bar1 <= 360)%Z.
Proof.
  apply (chart_bars_horizontal demo_labels demo_values demo_colors demo_bars).
  - reflexivity.
  - cbn. lia.
  - reflexivity.
Defined.

Lemma hourly_real_le_nominal_witness :
  exists resp, Hourly.calculate_hourly_income hourly_req_sample = Some resp /\
    Hourly.real_hourly_income resp <= Hourly.nominal_hourly_income resp /\
    Hourly.efficiency resp <= 100.
Proof. apply hourly_real_le_nominal; simpl; lra. Defined.

Lemma hourly_no_costs_witness :
  exists resp, Hourly.calculate_hourly_income hourly_req_free = Some resp /\
    Hourly.real_hourly_income resp = Hourly.nominal_hourly_income resp /\
    Hourly.efficiency resp = 100 /\
    Hourly.net_income resp = round2 (Hourly.monthly_income hourly_req_free).
Proof. apply hourly_no_costs; simpl; lra. Defined.


Lemma investment_flat_no_gain_witness :
  exists resp, Investment.calculate_investment inv_req_flat = Some resp /\
    Investment.total_gain resp = 0 /\ Investment.roi resp = 0 /\
    Investment.future_value resp = Investment.total_contributions resp.
Proof. apply investment_flat_no_gain. simpl. lra. Defined.

Lemma investment_growth_no_loss_witness :
  exists resp, Investment.calculate_investment inv_req_growth = Some resp /\
    Investment.total_contributions resp <= Investment.future_value resp /\
    0 <= Investment.total_gain resp /\ 0 <= Investment.roi resp.
Proof. apply investment_growth_no_loss; simpl; lra. Defined.

Lemma credit_no_interest_witness :
  exists resp, Credit.calculate_credit credit_req_free = Some resp /\
    Credit.total_payment resp = round2 (Credit.amount credit_req_free) /\
    Credit.overpayment resp = 0 /\
    Credit.monthly_payment resp =
      round2 (Credit.amount credit_req_free / (Credit.term credit_req_free * 12)).
Proof. apply credit_no_interest; simpl; lra. Defined.

Lemma credit_overpayment_nonneg_witness :
  exists resp, Credit.calculate_credit credit_req_loan = Some resp /\
    round2 (Credit.amount credit_req_loan) <= Credit.total_payment resp /\
    0 <= Credit.overpayment resp.
Proof. apply credit_overpayment_nonneg; simpl; lra. Defined.

Lemma retirement_zero_return_witness :
  Retirement.total_fv retirement_req_flat =
    Retirement.current_savings retirement_req_flat
    + Retirement.monthly_savings retirement_req_flat
      * IZR (as_i32 ((Retirement.retirement_age retirement_req_flat
                      - Retirement.current_age retirement_req_flat) * 12)).
Proof. apply retirement_zero_return. reflexivity. Defined.

Lemma retirement_growth_ge_deposits_witness :
  Retirement.current_savings retirement_req_growth
  + Retirement.monthly_savings retirement_req_growth
    * IZR (as_i32 ((Retirement.retirement_age retirement_req_growth
                    - Retirement.current_age retirement_req_growth) * 12))
  <= Retirement.total_fv retirement_req_growth.
Proof. apply retirement_growth_ge_deposits; simpl; lra. Defined.


Lemma rent_loop_yearly_witness :
  BuyRent.rent_loop (12 * 2) 3 (12 * 1 + 1) 0 800 =
  (0 + 12 * 800 * geom (1 + 3 / 100) 2, 800 * (1 + 3 / 100) ^ 2).
Proof. apply rent_loop_yearly. lia. Defined.

Lemma buy_rent_positions_witness :
  let req := buy_rent_req_sample in
  let h := as_i32 (BuyRent.horizon req) in
  let loan := fmax (BuyRent.property_price req - BuyRent.down_payment req) 0 in
  let mp := BuyRent.mortgage_payment loan (BuyRent.mortgage_rate req / 100 / 12)
              (as_i32 (BuyRent.mortgage_term req * 12)) in
  exists resp, BuyRent.calculate_buy_rent req = Some resp /\
    BuyRent.net_buy_position resp =
      round2 (BuyRent.property_price req
                * powf (1 + BuyRent.property_growth req / 100) (BuyRent.horizon req)
              - (BuyRent.down_payment req
                 + 12 * IZR h * (mp + BuyRent.property_price req * 0.01 / 12))) /\
    BuyRent.net_rent_position resp =
      round2 (BuyRent.down_payment req * powf 1.07 (BuyRent.horizon req)
              - 12 * BuyRent.monthly_rent req
                * geom (1 + BuyRent.rent_growth req / 100) (Z.to_nat h)).
Proof. apply buy_rent_positions. simpl. lra. Defined.


Lemma http_not_found_witness :
  demo_main {| Http.method := Http.Get; Http.path := "/calculate/tax";
               Http.body := "" |} =
    Some {| Http.status := 404; Http.headers := [];
            Http.resp_body := "Not Found" |}.
Proof.
  unfold demo_main. apply http_not_found; cbn [Http.method Http.path].
  - discriminate.
  - intros [_ H]. discriminate.
  - intros [H _]. discriminate.
Defined.

Lemma http_bad_request_witness :
  demo_main {| Http.method := Http.Post; Http.path := "/calculate/credit";
               Http.body := "{}" |} =
    Some {| Http.status := 400; Http.headers := [];
            Http.resp_body := "Bad Request: " ++ "expected value" |}.
Proof. unfold demo_main. apply http_bad_request; reflexivity. Defined.

Lemma http_calculator_ok_witness :
  exists s,
    demo_main {| Http.method := Http.Post; Http.path := "/calculate/tax";
                 Http.body := "{}" |} =
      Some {| Http.status := 200; Http.headers := Http.json_headers;
              Http.resp_body := s |}.
Proof.
  unfold demo_main. apply http_calculator_ok.
  - reflexivity.
  - simpl. tauto.
  - reflexivity.
Defined.
